(** * Omegga: player queries, role permissions and the metrics database

    A shallow embedding of three pieces of the omegga code base:
    - [getScaleAxis]            (brick utilities),
    - the [Player] class        (roles, permissions, console queries),
    - the [Database] class      ([authUser], [updatePlayerPunchcard]).

    Conventions of the embedding.
    - JavaScript objects that the code shares and freezes live in an object
      store ([gmap loc obj]); a reference is a location.  Values that are
      created and consumed locally are plain Rocq values.
    - Objects used as dictionaries are finite maps over their own keys.
      [DEFAULT_PERMS] is read at role names, which server owners choose, so
      its reads also see the members a plain object inherits
      ([Object_prototype_keys]).  The permissions object is read and written
      at permission names, which the game fixes (Bricks.ClearAll, ...).
    - Strings are byte strings; [toLowerCase] acts on the ASCII letters.
      Where a property turns on which role names are equal in lower case,
      the function is a parameter ([Lowering], [NameColor]), and what is
      proved holds for the one that lowers every cased letter.
    - Asynchronous console queries are programs ([prog]) whose nodes are the
      calls made on the omegga instance; the engine's answers are supplied
      by an environment. *)

From Stdlib Require Import Ascii String.
From stdpp Require Import base option numbers list strings gmap.

Open Scope string_scope.

(** ** JavaScript values used by the code *)

Module JS.

(** The values a permission entry can hold: [undefined] or a boolean. *)
Inductive jsval :=
| JUndefined
| JBool (b : bool).

#[global] Instance jsval_eq_dec : EqDecision jsval.
Proof. solve_decision. Defined.

Definition truthy (v : jsval) : bool :=
  match v with JBool true => true | _ => false end.

(** [a || b] *)
Definition js_or (a b : jsval) : jsval := if truthy a then a else b.

(** [a && b] *)
Definition js_and (a b : jsval) : jsval := if truthy a then b else a.

(** an optional boolean field read from an object *)
Definition of_field (f : option bool) : jsval :=
  match f with Some b => JBool b | None => JUndefined end.

(** [obj[key]] on a dictionary *)
Definition get (m : gmap string jsval) (k : string) : jsval :=
  default JUndefined (m !! k).

(** [Object.fromEntries]: later entries win *)
Definition fromEntries (es : list (string * jsval)) : gmap string jsval :=
  foldl (λ m e, <[e.1 := e.2]> m) ∅ es.

Definition lower_ascii (c : ascii) : ascii :=
  let n := nat_of_ascii c in
  if (65 <=? n)%nat && (n <=? 90)%nat then ascii_of_nat (n + 32) else c.

(** [s.toLowerCase()] *)
Fixpoint toLowerCase (s : string) : string :=
  match s with
  | EmptyString => EmptyString
  | String c r => String (lower_ascii c) (toLowerCase r)
  end.

(** How a call ends: with a value, or with a thrown error. *)
Inductive outcome (A : Type) : Type :=
| Returned (a : A)
| Threw.

Arguments Returned {A} a.
Arguments Threw {A}.

(** [`${v}`] for a value that may be undefined *)
Definition template (v : option string) : string := default "undefined" v.

(** *** The object store *)

Definition loc := positive.

Inductive payload :=
| Arr (elems : list string)
| Dict (props : gmap string jsval).

Record obj := Obj { payload_of : payload; frozen : bool }.

(** [Object.freeze(l)]: the object is frozen in place *)
Definition freeze (l : loc) (h : gmap loc obj) : gmap loc obj :=
  alter (λ o, Obj (payload_of o) true) l h.

(** a new object gets a location no live object has *)
Definition alloc (o : obj) (h : gmap loc obj) : loc * gmap loc obj :=
  let l := fresh (dom h) in (l, <[l := o]> h).

(** the elements of the array at [l] *)
Definition arr_elems (h : gmap loc obj) (l : loc) : list string :=
  match h !! l with
  | Some (Obj (Arr es) _) => es
  | _ => []
  end.

(** What a holder of a reference can try on it.  [None] is the TypeError
    a frozen (or missing) target answers with; the store is then as it
    was. *)
Definition array_push (l : loc) (v : string) (h : gmap loc obj)
  : option (gmap loc obj) :=
  match h !! l with
  | Some (Obj (Arr es) false) => Some (<[l := Obj (Arr (es ++ [v])) false]> h)
  | _ => None
  end.

Definition array_pop (l : loc) (h : gmap loc obj) : option (gmap loc obj) :=
  match h !! l with
  | Some (Obj (Arr es) false) =>
      Some (<[l := Obj (Arr (take (length es - 1) es)) false]> h)
  | _ => None
  end.

Definition set_prop (l : loc) (k : string) (v : jsval) (h : gmap loc obj)
  : option (gmap loc obj) :=
  match h !! l with
  | Some (Obj (Dict m) false) => Some (<[l := Obj (Dict (<[k := v]> m)) false]> h)
  | _ => None
  end.

Definition delete_prop (l : loc) (k : string) (h : gmap loc obj)
  : option (gmap loc obj) :=
  match h !! l with
  | Some (Obj (Dict m) false) => Some (<[l := Obj (Dict (delete k m)) false]> h)
  | _ => None
  end.

End JS.

Import JS.

(** ** Brick utilities: [getScaleAxis] *)

Module BrickUtil.

Local Open Scope Z_scope.

Record brick := Brick {
  asset_name_index : Z;
  size : list Z;
  position : list Z;
  direction : Z;
  rotation : Z;
}.

(** [arr.includes(x)] on numbers *)
Definition includes (l : list Z) (x : Z) : bool := bool_decide (x ∈ l).

Definition getScaleAxis (b : brick) (axis : Z) : Z :=
  let axis :=
    if includes [0; 1] (direction b) then
      if axis =? 0 then 2
      else if axis =? 2 then 0
      else axis
    else if includes [2; 3] (direction b) then
      if axis =? 0 then 1
      else if axis =? 1 then 2
      else if axis =? 2 then 0
      else axis
    else axis in
  let axis :=
    if includes [1; 3] (rotation b) then
      if axis =? 0 then 1
      else if axis =? 1 then 0
      else axis
    else axis in
  axis.

(** [getScaleAxis(brick, axis)] as a call on a brick object of a store of
    bricks: the function reads the brick's fields, all its assignments are
    to its own [axis], and the store is handed back as the call leaves it.
    A brick that is not there is [undefined], whose destructuring throws. *)
Definition getScaleAxis_call (bricks : gmap loc brick) (b : loc) (axis : Z)
  : outcome Z * gmap loc brick :=
  match bricks !! b with
  | Some brick => (Returned (getScaleAxis brick axis), bricks)
  | None => (Threw, bricks)
  end.

End BrickUtil.

(** ** The console: watched exchanges with the engine *)

Module Console.

(** A match of a pattern: its named capture groups.  A group that did not
    take part in the match is absent. *)
Record match_rec := Match { groups : gmap string string }.

(** [omegga.addWatcher(pattern, {exec, timeoutDelay})]; [w_exec] lists the
    lines the [exec] callback writes with [omegga.writeln] when invoked. *)
Record watch_req := WatchReq {
  w_pattern : string;
  w_exec : list string;
  w_timeoutDelay : option Z;
}.

(** [omegga.watchLogChunk(cmd, pattern, {first, timeoutDelay})] *)
Record chunk_req := ChunkReq {
  cmd : string;
  pattern : string;
  first : option string;
  timeoutDelay : option Z;
}.

(** An async method body, as the tree of calls it makes on omegga.
    - [Writeln]: a line written by the body itself,
    - [AddWatcher]: [await omegga.addWatcher(...)],
    - [WatchLogChunks]: [await Promise.all([omegga.watchLogChunk(...), ...])],
    - [Throw]: a TypeError raised by the body. *)
Inductive prog (A : Type) : Type :=
| Ret (a : A)
| Throw
| Writeln (line : string) (k : prog A)
| AddWatcher (w : watch_req) (k : list match_rec → prog A)
| WatchLogChunks (rs : list chunk_req) (k : list (list match_rec) → prog A).

Arguments Ret {A} a.
Arguments Throw {A}.
Arguments Writeln {A} line k.
Arguments AddWatcher {A} w k.
Arguments WatchLogChunks {A} rs k.

(** What reaches the watcher registry and the command channel. *)
Inductive event :=
| Registered (w : watch_req)
| Written (line : string)
| ChunkStarted (r : chunk_req).

(** What the engine's output makes of each exchange: the matches the
    exchange resolves with, or [None] when it is rejected.  [addWatcher]
    and [watchLogChunk] are not part of these sources; what they resolve
    with is left to the engine. *)
Record engine := Engine {
  watcher_result : watch_req → option (list match_rec);
  chunk_result : chunk_req → option (list match_rec);
}.

(** Modelled from the spec: [addWatcher] itself is not part of these
    sources.  The watcher is registered first; [exec] is then invoked
    exactly once, synchronously, to issue the triggering command. *)
Definition addWatcher_events (w : watch_req) : list event :=
  Registered w :: map Written (w_exec w).

(** Runs a method against an engine: the events in order, and the outcome.
    A rejected exchange makes the awaiting method throw. *)
Fixpoint run {A} (e : engine) (p : prog A) : list event * outcome A :=
  match p with
  | Ret a => ([], Returned a)
  | Throw => ([], Threw)
  | Writeln line k =>
      let '(t, r) := run e k in (Written line :: t, r)
  | AddWatcher w k =>
      match watcher_result e w with
      | Some ms => let '(t, r) := run e (k ms) in ((addWatcher_events w ++ t)%list, r)
      | None => (addWatcher_events w, Threw)
      end
  | WatchLogChunks rs k =>
      match mapM (chunk_result e) rs with
      | Some dumps =>
          let '(t, r) := run e (k dumps) in ((map ChunkStarted rs ++ t)%list, r)
      | None => (map ChunkStarted rs, Threw)
      end
  end.

(** The chunk exchanges a method can issue, whatever the engine answers. *)
Inductive issues {A} : prog A → chunk_req → Prop :=
| issues_here rs k r :
    r ∈ rs → issues (WatchLogChunks rs k) r
| issues_after_chunks rs k dumps r :
    issues (k dumps) r → issues (WatchLogChunks rs k) r
| issues_after_watcher w k ms r :
    issues (k ms) r → issues (AddWatcher w k) r
| issues_after_write line k r :
    issues k r → issues (Writeln line k) r.

(** The watchers a method can register. *)
Inductive registers {A} : prog A → watch_req → Prop :=
| registers_here w k :
    registers (AddWatcher w k) w
| registers_after_watcher w k ms w' :
    registers (k ms) w' → registers (AddWatcher w k) w'
| registers_after_chunks rs k dumps w' :
    registers (k dumps) w' → registers (WatchLogChunks rs k) w'
| registers_after_write line k w' :
    registers k w' → registers (Writeln line k) w'.

(** The lines a method writes itself, outside any [exec] callback. *)
Inductive writes_itself {A} : prog A → string → Prop :=
| writes_here line k :
    writes_itself (Writeln line k) line
| writes_after_write line k line' :
    writes_itself k line' → writes_itself (Writeln line k) line'
| writes_after_watcher w k ms line' :
    writes_itself (k ms) line' → writes_itself (AddWatcher w k) line'
| writes_after_chunks rs k dumps line' :
    writes_itself (k dumps) line' → writes_itself (WatchLogChunks rs k) line'.

End Console.

Import Console.

(** ** The [Player] class: roles and permissions *)

Module Player.

(** An entry of a role's permission list (RoleSetup.json). *)
Record permission := Permission {
  p_name : string;
  p_state : option string;
  p_bEnabled : option bool;
}.

Record role := Role {
  r_name : string;
  r_permissions : list permission;
}.

Record roleSetup := RoleSetup {
  roles : list role;
  defaultRole : role;
}.

(** An entry of [savedPlayerRoles]: its [roles] field, when present, is a
    reference to an array of role names. *)
Record roleEntry := RoleEntry { e_roles : option loc }.

(** What the functions read from the omegga instance: [host.id],
    [getRoleSetup()], [getRoleAssignments().savedPlayerRoles], and the
    objects these refer to. *)
Record omegga := Omegga {
  host_id : string;
  getRoleSetup : roleSetup;
  savedPlayerRoles : gmap string roleEntry;
  objects : gmap loc obj;
}.

Definition with_objects (h : gmap loc obj) (om : omegga) : omegga :=
  Omegga (host_id om) (getRoleSetup om) (savedPlayerRoles om) h.

(** The [roles] arrays of the saved assignments are arrays of the store. *)
Definition well_formed (om : omegga) : Prop :=
  ∀ id e l, savedPlayerRoles om !! id = Some e → e_roles e = Some l →
    ∃ es fr, objects om !! l = Some (Obj (Arr es) fr).

(** [static getRoles(omegga, id)] *)
Definition getRoles (om : omegga) (id : string) : loc * omegga :=
  let data := savedPlayerRoles om !! id in
  match data ≫= e_roles with
  | Some l => (l, with_objects (freeze l (objects om)) om)
  | None =>
      let '(l, h) := alloc (Obj (Arr []) true) (objects om) in
      (l, with_objects h om)
  end.

Definition DEFAULT_PERMS : gmap string (list string) :=
  list_to_map [
    ("moderator", [
      "Bricks.ClearAll";
      "Minigame.AlwaysLeave";
      "Players.Kick";
      "Players.TPInMinigame";
      "Players.TPOthers";
      "Self.Ghost" ]);
    ("admin", [
      "Bricks.ClearAll";
      "Bricks.ClearOwn";
      "Bricks.IgnoreTrust";
      "Bricks.Load";
      "Map.Environment";
      "Minigame.AlwaysEdit";
      "Minigame.AlwaysLeave";
      "Minigame.AlwaysSwitchTeam";
      "Minigame.MakeDefault";
      "Minigame.MakePersistent";
      "Minigame.UseAllBricks";
      "Players.Ban";
      "Players.Kick";
      "Players.TPInMinigame";
      "Players.TPOthers";
      "Roles.Grant";
      "Self.Ghost";
      "Server.ChangeRoles";
      "Server.ChangeSettings";
      "Server.FreezeCamera";
      "Tools.Selector.BypassLimits";
      "Tools.Selector.BypassTimeouts" ]) ].

(** default player permissions *)
Definition default_permissions : gmap string jsval :=
  list_to_map [
    ("Bricks.ClearAll", JBool false);
    ("Bricks.ClearOwn", JBool true);
    ("Bricks.Delete", JBool true);
    ("Bricks.Edit", JBool true);
    ("Bricks.IgnoreTrust", JBool false);
    ("Bricks.Paint", JBool true);
    ("Bricks.Place", JBool true);
    ("BricksItems.Spawn", JBool true);
    ("Map.Change", JBool false);
    ("Map.Environment", JBool false);
    ("Map.SetSpawn", JBool false);
    ("Minigame.AlwaysEdit", JBool false);
    ("Minigame.AlwaysLeave", JBool false);
    ("Minigame.AlwaysSwitchTeam", JBool false);
    ("Minigame.Create", JBool true);
    ("Minigame.MakePersistent", JBool false);
    ("Minigame.UseAllBricks", JBool false);
    ("Players.Ban", JBool false);
    ("Players.TPInMinigame", JBool false);
    ("Players.TPOthers", JBool false);
    ("Players.TPSelf", JBool true);
    ("Roles.Grant", JBool false);
    ("Self.Flashlight", JBool true);
    ("Self.Fly", JBool true);
    ("Self.FreezeCamera", JBool false);
    ("Self.Ghost", JBool false);
    ("Self.Sprint", JBool true);
    ("Self.Suicide", JBool true);
    ("Tools.Selector.Use", JBool true) ].

Definition state_is (p : permission) (s : string) : bool :=
  bool_decide (p_state p = Some s).

(** the entries of the host's permission map *)
Definition host_entries (rs : roleSetup) : list (string * jsval) :=
  map (λ p, (p_name p, JBool true)) (r_permissions (defaultRole rs))
  ++ concat (map (λ r, map (λ p, (p_name p, JBool true)) (r_permissions r))
                 (roles rs)).

(** apply all permissions from default role *)
Definition apply_default (perms : gmap string jsval) (p : permission)
  : gmap string jsval :=
  <[p_name p :=
      if state_is p "Unchanged" then get perms (p_name p)
      else JBool (truthy (of_field (p_bEnabled p)) || state_is p "Allowed")]>
    perms.

(** if they are not overriden, set it to true *)
Definition apply_role_default (r : role) (perms : gmap string jsval)
  (perm : string) : gmap string jsval :=
  match find (λ q, bool_decide (p_name q = perm)) (r_permissions r) with
  | Some _ => perms
  | None => <[perm := JBool true]> perms
  end.

(** add all the new permissions the player now has *)
Definition apply_role_perm (perms : gmap string jsval) (p : permission)
  : gmap string jsval :=
  let perms :=
    <[p_name p :=
        js_and (JBool (negb (state_is p "Forbidden")))
          (if state_is p "Unchanged" then get perms (p_name p)
           else js_or (js_or (get perms (p_name p)) (of_field (p_bEnabled p)))
                      (JBool (state_is p "Allowed")))]> perms in
  <[p_name p := js_or (get perms (p_name p)) (of_field (p_bEnabled p))]> perms.

(** The member names of [Object.prototype]: a plain object such as
    [DEFAULT_PERMS] answers a read at one of them with the inherited member,
    a function or the prototype itself. *)
Definition Object_prototype_keys : list string :=
  [ "constructor"; "__defineGetter__"; "__defineSetter__"; "hasOwnProperty";
    "__lookupGetter__"; "__lookupSetter__"; "isPrototypeOf";
    "propertyIsEnumerable"; "toString"; "valueOf"; "__proto__";
    "toLocaleString" ].

(** [DEFAULT_PERMS[key] || []], as the list the loop goes through.  An own
    key gives its array and a key that is not there gives the empty array.
    An inherited member is truthy, so it is kept, and it is not iterable:
    the loop over it throws a TypeError, [None]. *)
Definition defaultPerms_of (key : string) : option (list string) :=
  match DEFAULT_PERMS !! key with
  | Some perms => Some perms
  | None =>
      if bool_decide (key ∈ Object_prototype_keys) then None else Some []
  end.

(** one round of the loop through all the roles *)
Definition apply_role (playerRoles : list string)
  (perms : gmap string jsval) (r : role) : option (gmap string jsval) :=
  if negb (bool_decide (toLowerCase (r_name r) ∈ playerRoles)) then Some perms
  else
    defaultPerms ← defaultPerms_of (toLowerCase (r_name r));
    let perms := foldl (apply_role_default r) perms defaultPerms in
    Some (foldl apply_role_perm perms (r_permissions r)).

(** loop through all the roles *)
Fixpoint apply_roles (playerRoles : list string)
  (perms : gmap string jsval) (rs : list role) : option (gmap string jsval) :=
  match rs with
  | [] => Some perms
  | r :: rs =>
      perms ← apply_role playerRoles perms r;
      apply_roles playerRoles perms rs
  end.

(** the permission map of a player who holds the roles [held]; [None] when
    building it throws *)
Definition merge_permissions (rs : roleSetup) (held : list string)
  : option (gmap string jsval) :=
  let playerRoles := map toLowerCase held in
  let permissions := default_permissions in
  let permissions :=
    foldl apply_default permissions (r_permissions (defaultRole rs)) in
  apply_roles playerRoles permissions (roles rs).

(** [static getPermissions(omegga, id)]: how the call ends, and the state it
    leaves *)
Definition getPermissions (om : omegga) (id : string)
  : outcome loc * omegga :=
  let rs := getRoleSetup om in
  if bool_decide (host_id om = id) then
    let '(l, h) :=
      alloc (Obj (Dict (fromEntries (host_entries rs))) true) (objects om) in
    (Returned l, with_objects h om)
  else
    let '(lr, om1) := getRoles om id in
    let held := arr_elems (objects om1) lr in
    match merge_permissions rs held with
    | Some permissions =>
        let '(l, h) :=
          alloc (Obj (Dict permissions) true) (objects om1) in
        (Returned l, with_objects h om1)
    | None => (Threw, om1)
    end.

(** The instance methods pass the player's own omegga and id. *)
Record player := MkPlayer {
  name : string;
  id : string;
  controller : string;
  state : string;
}.

Definition getRoles_of (om : omegga) (p : player) : loc * omegga :=
  getRoles om (id p).

Definition getPermissions_of (om : omegga) (p : player)
  : outcome loc * omegga :=
  getPermissions om (id p).

(** *** Console queries *)

(** the double quote character *)
Definition dq : string := String (ascii_of_nat 34) EmptyString.

Section queries.

(** [Number(v)] and [+v] on a capture, and the table
    [brickUtils.BRICK_CONSTANTS.DEFAULT_MATERIALS] read at a key. *)
Context {num material : Type}.
Context (Number : option string → num).
Context (DEFAULT_MATERIALS : option string → material).

(** **** [getPosition] *)

Definition pawnRegExp (ctrl : string) : string :=
  "BP_PlayerController_C .+?PersistentLevel\." ++ ctrl
  ++ "\.Pawn = BP_FigureV2_C'.+?:PersistentLevel.(?<pawn>BP_FigureV2_C_\d+)'".

Definition pawnCommand (ctrl : string) : string :=
  "GetAll BP_PlayerController_C Pawn Name=" ++ ctrl.

Definition posRegExp (pawn : string) : string :=
  "CapsuleComponent .+?PersistentLevel\." ++ pawn
  ++ "\.CollisionCylinder\.RelativeLocation = \(X=(?<x>[\d\.-]+),Y=(?<y>[\d\.-]+),Z=(?<z>[\d\.-]+)\)".

Definition posCommand (pawn : string) : string :=
  "GetAll SceneComponent RelativeLocation Name=CollisionCylinder Outer=" ++ pawn.

Definition pawnWatcher (ctrl : string) : watch_req :=
  WatchReq (pawnRegExp ctrl) [pawnCommand ctrl] (Some 100%Z).

Definition posWatcher (pawn : string) : watch_req :=
  WatchReq (posRegExp pawn) [posCommand pawn] (Some 100%Z).

Definition getPosition (p : player) : prog (list num) :=
  AddWatcher (pawnWatcher (controller p))
    (λ ms,
       match ms with
       | [] => Throw
       | m :: _ =>
           let pawn := template (groups m !! "pawn") in
           AddWatcher (posWatcher pawn)
             (λ ms',
                match ms' with
                | [] => Throw
                | m' :: _ =>
                    let x := groups m' !! "x" in
                    let y := groups m' !! "y" in
                    let z := groups m' !! "z" in
                    Ret (map Number [x; y; z])
                end)
       end).

(** **** [getGhostBrick] *)

Record ghostBrick := GhostBrick {
  targetGrid : option string;
  location : list num;
  orientation : option string;
}.

Definition ghostOwnerRegExp : string :=
  "^(?<index>\d+)\) BrickGridPreviewActor (.+):PersistentLevel\.(?<actor>BrickGridPreviewActor_\d+)\.Owner = BP_PlayerController_C'(.+):PersistentLevel\.(?<controller>BP_PlayerController_C_\d+)'$".

Definition transformParamsRegExp : string :=
  "^(?<index>\d+)\) BrickGridPreviewActor (.+):PersistentLevel\.(?<actor>BrickGridPreviewActor_\d+)\.TransformParameters = \(TargetGrid=("
  ++ dq ++ "(?<targetGrid>.+)" ++ dq
  ++ "|None),Position=\(X=(?<x>.+),Y=(?<y>.+),Z=(?<z>.+)\),Orientation=(?<orientation>.+)\)$".

Definition ghostOwnerReq : chunk_req :=
  ChunkReq "GetAll BrickGridPreviewActor Owner" ghostOwnerRegExp
    (Some "index") (Some 500%Z).

Definition transformParamsReq : chunk_req :=
  ChunkReq "GetAll BrickGridPreviewActor TransformParameters"
    transformParamsRegExp (Some "index") (Some 500%Z).

(** [owners.find(owner => owner.groups.controller === controller)] *)
Definition owned_by (ctrl : string) (owner : match_rec) : bool :=
  bool_decide (groups owner !! "controller" = Some ctrl).

(** [list.find(r => r.groups[key] === value)] *)
Definition group_is (key : string) (value : option string) (r : match_rec)
  : bool :=
  bool_decide (groups r !! key = value).

Definition getGhostBrick (p : player) : prog (option ghostBrick) :=
  WatchLogChunks [ghostOwnerReq; transformParamsReq]
    (λ dumps,
       match dumps with
       | [owners; transformParams] =>
           match find (owned_by (controller p)) owners with
           | None => Ret None
           | Some owner =>
               let actor := groups owner !! "actor" in
               match find (group_is "actor" actor) transformParams with
               | None => Ret None
               | Some transformParameters =>
                   Ret (Some
                     {| targetGrid := groups transformParameters !! "targetGrid";
                        location :=
                          [ Number (groups transformParameters !! "x");
                            Number (groups transformParameters !! "y");
                            Number (groups transformParameters !! "z") ];
                        orientation := groups transformParameters !! "orientation" |})
               end
           end
       | _ => Throw
       end).

(** **** [getPaint] *)

Record paint := Paint {
  materialIndex : option string;
  materialAlpha : option string;
  paint_material : material;
  color : list num;
}.

Definition paintOwnerRegExp : string :=
  "^(?<index>\d+)\) BP_Item_PaintTool_C (.+):PersistentLevel\.(?<actor>BP_Item_PaintTool_C_\d+)\.Owner = BP_PlayerController_C'(.+):PersistentLevel\.(?<controller>BP_PlayerController_C_\d+)'$".

Definition colorRegExp : string :=
  "^(?<index>\d+)\) BP_Item_PaintTool_C (.+):PersistentLevel\.(?<actor>BP_Item_PaintTool_C_\d+)\.SelectedColor = \(B=(?<b>.+),G=(?<g>.+),R=(?<r>.+),A=(?<a>.+)\)$".

Definition materialRegExp : string :=
  "^(?<index>\d+)\) BP_Item_PaintTool_C (.+):PersistentLevel\.(?<actor>BP_Item_PaintTool_C_\d+)\.SelectedMaterialId = (?<materialIndex>\d+)$".

Definition materialAlphaRegExp : string :=
  "^(?<index>\d+)\) BP_Item_PaintTool_C (.+):PersistentLevel\.(?<actor>BP_Item_PaintTool_C_\d+)\.SelectedMaterialAlpha = (?<materialAlpha>\d+)$".

Definition paintReqs : list chunk_req :=
  [ ChunkReq "GetAll BP_Item_PaintTool_C Owner" paintOwnerRegExp
      (Some "index") (Some 500%Z);
    ChunkReq "GetAll BP_Item_PaintTool_C SelectedColor" colorRegExp
      (Some "index") (Some 500%Z);
    ChunkReq "GetAll BP_Item_PaintTool_C SelectedMaterialId" materialRegExp
      (Some "index") (Some 500%Z);
    ChunkReq "GetAll BP_Item_PaintTool_C SelectedMaterialAlpha"
      materialAlphaRegExp (Some "index") (Some 500%Z) ].

Definition getPaint (p : player) : prog (option paint) :=
  WatchLogChunks paintReqs
    (λ dumps,
       match dumps with
       | [owners; colorMatch; materialMatch; materialAlphaMatch] =>
           match find (owned_by (controller p)) owners with
           | None => Ret None
           | Some owner =>
               let actor := groups owner !! "actor" in
               let color := find (group_is "actor" actor) colorMatch in
               let material := find (group_is "actor" actor) materialMatch in
               let materialAlpha :=
                 find (group_is "actor" actor) materialAlphaMatch in
               match color, material, materialAlpha with
               | Some color, Some material, Some materialAlpha =>
                   let colorRaw :=
                     [ Number (groups color !! "r");
                       Number (groups color !! "g");
                       Number (groups color !! "b") ] in
                   Ret (Some
                     {| materialIndex := groups material !! "materialIndex";
                        materialAlpha := groups materialAlpha !! "materialAlpha";
                        paint_material :=
                          DEFAULT_MATERIALS (groups material !! "materialIndex");
                        color := colorRaw |})
               | _, _, _ => Ret None
               end
           end
       | _ => Throw
       end).

(** **** [getTemplateBounds] *)

Record templateBounds := TemplateBounds {
  minBound : list num;
  maxBound : list num;
  center : list num;
}.

Definition brickTemplateRegExp : string :=
  "^(?<index>\d+)\) BP_PlayerController_C (.+):PersistentLevel\.(?<controller>BP_PlayerController_C_\d+)\.TEMP_BrickTemplate_Server = BrickBuildingTemplate'(.+)Transient.(?<templateName>BrickBuildingTemplate_\d+)'$".

Definition minBoundsRegExp : string :=
  "^(?<index>\d+)\) BrickBuildingTemplate (.+)Transient\.(?<templateName>BrickBuildingTemplate_\d+)\.MinBounds = \(X=(?<x>.+),Y=(?<y>.+),Z=(?<z>.+)\)$".

Definition maxBoundsRegExp : string :=
  "^(?<index>\d+)\) BrickBuildingTemplate (.+)Transient\.(?<templateName>BrickBuildingTemplate_\d+)\.MaxBounds = \(X=(?<x>.+),Y=(?<y>.+),Z=(?<z>.+)\)$".

Definition centerRegExp : string :=
  "^(?<index>\d+)\) BrickBuildingTemplate (.+)Transient\.(?<templateName>BrickBuildingTemplate_\d+)\.Center = \(X=(?<x>.+),Y=(?<y>.+),Z=(?<z>.+)\)$".

Definition templateReqs (ctrl : string) : list chunk_req :=
  [ ChunkReq
      ("GetAll BP_PlayerController_C TEMP_BrickTemplate_Server Name=" ++ ctrl)
      brickTemplateRegExp (Some "index") None;
    ChunkReq "GetAll BrickBuildingTemplate MinBounds" minBoundsRegExp
      (Some "index") None;
    ChunkReq "GetAll BrickBuildingTemplate MaxBounds" maxBoundsRegExp
      (Some "index") None;
    ChunkReq "GetAll BrickBuildingTemplate Center" centerRegExp
      (Some "index") None ].

(** [[+r.groups.x, +r.groups.y, +r.groups.z]] *)
Definition xyz (r : match_rec) : list num :=
  [ Number (groups r !! "x"); Number (groups r !! "y"); Number (groups r !! "z") ].

Definition getTemplateBounds (p : player) : prog (option templateBounds) :=
  WatchLogChunks (templateReqs (controller p))
    (λ dumps,
       match dumps with
       | [template; minBounds; maxBounds; centers] =>
           match template, minBounds, maxBounds, centers with
           | t0 :: _, _ :: _, _ :: _, _ :: _ =>
               let templateName := groups t0 !! "templateName" in
               let minBound :=
                 find (group_is "templateName" templateName) minBounds in
               let maxBound :=
                 find (group_is "templateName" templateName) maxBounds in
               let center :=
                 find (group_is "templateName" templateName) centers in
               match minBound, maxBound, center with
               | Some minBound, Some maxBound, Some center =>
                   Ret (Some
                     {| minBound := xyz minBound;
                        maxBound := xyz maxBound;
                        center := xyz center |})
               | _, _, _ => Ret None
               end
           | _, _, _, _ => Ret None
           end
       | _ => Throw
       end).

End queries.

End Player.

(** ** The [Database] class *)

Module UTCDate.

Local Open Scope Z_scope.

(** The UTC fields of a time value (milliseconds since the epoch), as
    ECMAScript defines them. *)
Definition msPerDay : Z := 86400000.
Definition msPerHour : Z := 3600000.

Definition Day (t : Z) : Z := t `div` msPerDay.

(** [getUTCHours()] *)
Definition getUTCHours (t : Z) : Z := (t `div` msPerHour) `mod` 24.

(** [getUTCDay()]: the day of the week, Sunday is 0 *)
Definition getUTCDay (t : Z) : Z := (Day t + 4) `mod` 7.

(** year and month (0 to 11) of a day number, in the proleptic Gregorian
    calendar *)
Definition civil (days : Z) : Z * Z :=
  let z := days + 719468 in
  let era := z `div` 146097 in
  let doe := z - era * 146097 in
  let yoe := (doe - doe `div` 1460 + doe `div` 36524 - doe `div` 146096) `div` 365 in
  let doy := doe - (365 * yoe + yoe `div` 4 - yoe `div` 100) in
  let mp := (5 * doy + 2) `div` 153 in
  let m := if mp <? 10 then mp + 3 else mp - 9 in
  let y := yoe + era * 400 + (if m <=? 2 then 1 else 0) in
  (y, m - 1).

(** [getUTCFullYear()] *)
Definition getUTCFullYear (t : Z) : Z := (civil (Day t)).1.

(** [getUTCMonth()] *)
Definition getUTCMonth (t : Z) : Z := (civil (Day t)).2.

End UTCDate.

Module Database.

Import UTCDate.

(** *** The users store *)

Record user := User {
  u_id : nat;
  u_created : Z;
  username : string;
  hash : string;
  isOwner : bool;
  isBanned : option bool;
  u_roles : list string;
  playerId : string;
}.

Inductive users_doc :=
| UsersVersion (version : Z)
| UserDoc (u : user).

(** the query [{ username }]: documents whose username is the given one *)
Definition user_named (name : string) (d : users_doc) : bool :=
  match d with
  | UserDoc u => bool_decide (username u = name)
  | UsersVersion _ => false
  end.

(** [stores.users.findOne({ username })] *)
Definition findOne_username (users : list users_doc) (name : string)
  : option user :=
  match find (user_named name) users with
  | Some (UserDoc u) => Some u
  | _ => None
  end.

Section auth.

(** [bcrypt.compare(password, hash)], once resolved *)
Context (bcrypt_compare : string → string → bool).

(** [authUser(username, password)]: the record returned ([None] is null),
    and the calls of [bcrypt.compare] it made, as (password, hash). *)
Definition authUser (users : list users_doc) (name password : string)
  : option user * list (string * string) :=
  match findOne_username users name with
  | None => (None, [])
  | Some user =>
      if bool_decide (isBanned user = Some true) then (None, [])
      else if bcrypt_compare password (hash user)
           then (Some user, [(password, hash user)])
           else (None, [(password, hash user)])
  end.

End auth.

(** *** The status store *)

Record card := Card {
  c_id : nat;
  kind : string;
  created : Z;
  updated : Z;
  month : Z;
  year : Z;
  punchcard : list (list Z);
}.

Inductive status_doc :=
| StatusVersion (i : nat) (version : Z)
| Heartbeat (i : nat) (at_time : Z) (bricks : Z) (players : list string)
| Punchcard (c : card).

Definition doc_id (d : status_doc) : nat :=
  match d with
  | StatusVersion i _ => i
  | Heartbeat i _ _ _ => i
  | Punchcard c => c_id c
  end.

(** generate a punchcard (days x week) *)
Definition createPunchcard : list (list Z) := replicate 7 (replicate 24 0%Z).

(** the cell [punchcard[day][hour]] *)
Definition cell (pc : list (list Z)) (day hour : nat) : option Z :=
  pc !! day ≫= (.!! hour).

(** [punchcard[day][hour] = v].  A missing row is a TypeError; a write past
    the end of a row would grow it, which no 7 by 24 card sees: both give
    [None]. *)
Definition set_cell (pc : list (list Z)) (day hour : nat) (v : Z)
  : option (list (list Z)) :=
  row ← pc !! day;
  if bool_decide (hour < length row)%nat
  then Some (<[day := <[hour := v]> row]> pc)
  else None.

(** [punchcard[day][hour] += n].  A missing row is a TypeError; a missing
    cell would make the sum not a number: both give [None]. *)
Definition add_cell (pc : list (list Z)) (day hour : nat) (n : Z)
  : option (list (list Z)) :=
  row ← pc !! day;
  old ← row !! hour;
  Some (<[day := <[hour := (old + n)%Z]> row]> pc).

(** [findOne({type: 'punchcard', kind: 'playerCount', month, year})] *)
Definition is_card_of (m y : Z) (d : status_doc) : bool :=
  match d with
  | Punchcard c =>
      bool_decide (kind c = "playerCount") && bool_decide (month c = m)
      && bool_decide (year c = y)
  | _ => false
  end.

Definition findOne_card (docs : list status_doc) (m y : Z) : option card :=
  match find (is_card_of m y) docs with
  | Some (Punchcard c) => Some c
  | _ => None
  end.

(** [insert(doc)]: the store gives the document an id of its own *)
Definition fresh_id (docs : list status_doc) : nat :=
  S (foldr Nat.max 0%nat (map doc_id docs)).

(** [update({ _id }, { $set: { punchcard, updated } })]: the first document
    with that id is changed *)
Fixpoint update_card (i : nat) (pc : list (list Z)) (time : Z)
  (docs : list status_doc) : list status_doc :=
  match docs with
  | [] => []
  | d :: ds =>
      if bool_decide (doc_id d = i) then
        match d with
        | Punchcard c =>
            Punchcard (Card (c_id c) (kind c) (created c) time (month c)
                         (year c) pc) :: ds
        | _ => d :: ds
        end
      else d :: update_card i pc time ds
  end.

(** [updatePlayerPunchcard(numNewPlayers)], run at time [now] *)
Definition updatePlayerPunchcard (now : Z) (numNewPlayers : Z)
  (docs : list status_doc) : option (list status_doc) :=
  let time := now in
  let hour := Z.to_nat (getUTCHours now) in
  let day := Z.to_nat (getUTCDay now) in
  let month := getUTCMonth now in
  let year := getUTCFullYear now in
  match findOne_card docs month year with
  | None =>
      punchcard ← set_cell createPunchcard day hour numNewPlayers;
      Some (docs ++ [Punchcard (Card (fresh_id docs) "playerCount" time time
                                 month year punchcard)])%list
  | Some card =>
      punchcard ← add_cell (punchcard card) day hour numNewPlayers;
      Some (update_card (c_id card) punchcard time docs)
  end.

(** The store's own guarantees: ids are unique, and every card is 7 by 24. *)
Definition is_7_by_24 (pc : list (list Z)) : Prop :=
  length pc = 7%nat ∧ Forall (λ row, length row = 24%nat) pc.

Definition store_ok (docs : list status_doc) : Prop :=
  NoDup (map doc_id docs)
  ∧ ∀ c, Punchcard c ∈ docs → is_7_by_24 (punchcard c).

End Database.

(** ** Notions used to state the properties *)

Module Props.

Import Player.

(** the role names saved for a player *)
Definition held_roles (om : omegga) (id : string) : list string :=
  match savedPlayerRoles om !! id ≫= e_roles with
  | Some l => arr_elems (objects om) l
  | None => []
  end.

(** the permission map [getPermissions] builds; [None] when it throws *)
Definition permissions_of (om : omegga) (id : string)
  : option (gmap string jsval) :=
  if bool_decide (host_id om = id)
  then Some (fromEntries (host_entries (getRoleSetup om)))
  else merge_permissions (getRoleSetup om) (held_roles om id).

(** the object a call of [getRoles] returned, read in the state it left *)
Definition returned (r : loc * omegga) : option obj := objects r.2 !! r.1.

(** how a call of [getPermissions] ended: with the object it returned, read
    in the state it left, or with a throw *)
Definition result (r : outcome loc * omegga) : outcome (option obj) :=
  match r.1 with
  | Returned l => Returned (objects r.2 !! l)
  | Threw => Threw
  end.

(** no role of the setup has a name that, in lower case, is a member name
    of [Object.prototype] *)
Definition plain_role_names (rs : roleSetup) : Prop :=
  Forall (λ r, toLowerCase (r_name r) ∉ Object_prototype_keys) (roles rs).

(** [om'] reads as [om] does, and holds every object of [om] as it was. *)
Definition untouched (om om' : omegga) : Prop :=
  host_id om' = host_id om
  ∧ getRoleSetup om' = getRoleSetup om
  ∧ savedPlayerRoles om' = savedPlayerRoles om
  ∧ ∀ l o, objects om !! l = Some o → objects om' !! l = Some o.

(** As [untouched], but the array of role names saved for [id] may have
    become frozen; its elements are as they were. *)
Definition untouched_but_frozen (id : string) (om om' : omegga) : Prop :=
  host_id om' = host_id om
  ∧ getRoleSetup om' = getRoleSetup om
  ∧ savedPlayerRoles om' = savedPlayerRoles om
  ∧ ∀ l o, objects om !! l = Some o →
      objects om' !! l = Some o
      ∨ (savedPlayerRoles om !! id ≫= e_roles = Some l
         ∧ host_id om ≠ id
         ∧ objects om' !! l = Some (Obj (payload_of o) true)).

(** The object at [l] after a call for [id]: the array of role names saved
    for a player who is not the host is frozen, its elements as they were;
    any other object is as it was. *)
Definition after_call (id : string) (om : omegga) (l : loc) (o : obj) : obj :=
  if decide (host_id om ≠ id ∧ savedPlayerRoles om !! id ≫= e_roles = Some l)
  then Obj (payload_of o) true
  else o.

(** [om'] reads as [om] does; every object of [om] is in [om'] what
    [after_call] makes of it; the objects that are new in [om'] are frozen. *)
Definition freezes_saved_roles (id : string) (om om' : omegga) : Prop :=
  host_id om' = host_id om
  ∧ getRoleSetup om' = getRoleSetup om
  ∧ savedPlayerRoles om' = savedPlayerRoles om
  ∧ (∀ l o, objects om !! l = Some o →
       objects om' !! l = Some (after_call id om l o))
  ∧ (∀ l o, objects om !! l = None → objects om' !! l = Some o →
       frozen o = true).

(** A server whose host is not player p1; p1 holds the role Admin. *)
Definition sample_omegga : omegga :=
  Omegga "host-1"
    (RoleSetup
       [Role "Admin" [Permission "Bricks.Load" (Some "Forbidden") None]]
       (Role "Default" [Permission "Map.Change" (Some "Allowed") None]))
    {[ "p1" := RoleEntry (Some 1%positive) ]}
    {[ 1%positive := Obj (Arr ["Admin"]) false ]}.

(** A server with a role named Constructor, which player p1 holds. *)
Definition builders_omegga : omegga :=
  Omegga "host-1"
    (RoleSetup [Role "Constructor" []] (Role "Default" []))
    {[ "p1" := RoleEntry (Some 1%positive) ]}
    {[ 1%positive := Obj (Arr ["Constructor"]) false ]}.

(** [x] is the first element of [l] with [P]: what [l.find(...)] returns. *)
Definition first_with {A} (P : A → Prop) (l : list A) (x : A) : Prop :=
  ∃ pre post, l = (pre ++ x :: post)%list ∧ P x ∧ Forall (λ y, ¬ P y) pre.

(** no element of [l] has [P]: [l.find(...)] is undefined *)
Definition none_with {A} (P : A → Prop) (l : list A) : Prop :=
  Forall (λ y, ¬ P y) l.

(** the record's capture group [key] is [value] *)
Definition has_group (key : string) (value : option string) (r : match_rec)
  : Prop :=
  groups r !! key = value.

(** every pattern of a chunk exchange starts with the entry counter *)
Definition index_head : string := "^(?<index>\d+)\) ".

Definition keyed_by_index (r : chunk_req) : Prop :=
  first r = Some "index" ∧ String.prefix index_head (pattern r) = true.

(** a match with the given capture groups *)
Definition captures (gs : list (string * string)) : match_rec :=
  Match (list_to_map gs).

Definition sample_player : player :=
  MkPlayer "Bob" "p1" "BP_PlayerController_C_7" "BP_PlayerState_C_7".

(** An engine that resolves the pawn of the sample player, then its
    position. *)
Definition position_engine : engine :=
  Engine
    (λ w, if bool_decide (w_pattern w = pawnRegExp "BP_PlayerController_C_7")
          then Some [captures [("pawn", "BP_FigureV2_C_3")]]
          else Some [captures [("x", "1.5"); ("y", "-2"); ("z", "30")]])
    (λ _, None).

(** a dump entry with every capture the queries read, of controller 7 *)
Definition sample_entry : match_rec :=
  captures
    [("index", "0");
     ("controller", "BP_PlayerController_C_7");
     ("actor", "Actor_1");
     ("templateName", "BrickBuildingTemplate_4");
     ("x", "10"); ("y", "20"); ("z", "30");
     ("orientation", "Z_Positive_0");
     ("r", "255"); ("g", "128"); ("b", "0"); ("a", "255");
     ("materialIndex", "2"); ("materialAlpha", "5")].

(** An engine whose dumps know one ghost brick, one paint tool and one
    template, all of controller 7. *)
Definition dump_engine : engine :=
  Engine (λ _, None) (λ r, Some [sample_entry]).

(** a player no dump knows *)
Definition other_player : player :=
  MkPlayer "Eve" "p2" "BP_PlayerController_C_9" "BP_PlayerState_C_9".

(** numbers kept as the text they were read from, materials by their key *)
Definition sample_Number (v : option string) : string := template v.
Definition sample_materials (key : option string) : string :=
  ("material " ++ template key)%string.

(** An engine whose dumps are all empty. *)
Definition silent_engine : engine := Engine (λ _, None) (λ _, Some []).

(** *** The database *)

Import Database.

(** the document is a user of that name *)
Definition is_user_named (name : string) (d : users_doc) : Prop :=
  ∃ u, d = UserDoc u ∧ username u = name.

(** a password check that accepts the password written after [hash:] *)
Definition sample_compare (password hash : string) : bool :=
  bool_decide (hash = ("hash:" ++ password)%string).

Definition alice : user :=
  User 1 1000 "alice" "hash:secret" false None [] EmptyString.

Definition mallory : user :=
  User 2 2000 "mallory" "hash:1234" false (Some true) [] EmptyString.

Definition sample_users : list users_doc :=
  [UsersVersion 1; UserDoc alice; UserDoc mallory].

(** the cells of the month's card before an update: those of the stored
    card, or of an empty card when the month has none yet *)
Definition cells_before (docs : list status_doc) (m y : Z) (d h : nat)
  : option Z :=
  match findOne_card docs m y with
  | Some c => cell (punchcard c) d h
  | None => cell createPunchcard d h
  end.

(** a status store with a heartbeat and no card *)
Definition sample_status : list status_doc :=
  [StatusVersion 1 1; Heartbeat 2 1793606400000 120 ["p1"]].

End Props.

(** case analysis on the remaining [find]s of a query *)
Ltac split_finds :=
  repeat match goal with
    | |- context [match find ?f ?l with _ => _ end] => destruct (find f l)
    end.

(** ** The [Player] class: name color *)

Module NameColor.

Import Player.

Record rgba := RGBA { r : Z; g : Z; b : Z; a : Z }.

(** A role as [getRoleSetup()] gives it, with the color fields that the
    permission merge does not read. *)
Record coloredRole := ColoredRole {
  plain : role;
  bHasColor : bool;
  color : rgba;
}.

(** The fields of [getRoleSetup()] that [getNameColor] reads. *)
Record colorSetup := ColorSetup {
  c_roles : list coloredRole;
  c_defaultRole : coloredRole;
  ownerRoleColor : rgba;
  bOwnerRoleHasColor : bool;
}.

(** [isHost()] *)
Definition isHost (om : omegga) (p : player) : bool :=
  bool_decide (host_id om = id p).

Section name_color.

(** [String.prototype.toLowerCase].  It lowers every cased letter, not the
    ASCII ones alone, so it is taken as it comes. *)
Context (toLowerCase : string → string).

(** [color.rgbToHex], which is not part of these sources *)
Context (rgbToHex : rgba → string).

(** [role.bHasColor && playerRoles.includes(role.name.toLowerCase())] *)
Definition colored_and_held (playerRoles : list string) (role : coloredRole)
  : bool :=
  bHasColor role
  && bool_decide (toLowerCase (r_name (plain role)) ∈ playerRoles).

(** [getNameColor()]: the hex string, and the state the call leaves *)
Definition getNameColor (cs : colorSetup) (om : omegga) (p : player)
  : string * omegga :=
  if isHost om p && bOwnerRoleHasColor cs
  then (rgbToHex (ownerRoleColor cs), om)
  else
    let '(lr, om1) := getRoles_of om p in
    let playerRoles := map toLowerCase (arr_elems (objects om1) lr) in
    let found :=
      if bool_decide (0 < length playerRoles)%nat
      then find (colored_and_held playerRoles) (rev (c_roles cs))
      else None in
    match found with
    | Some found => (rgbToHex (color found), om1)
    | None =>
        (rgbToHex (if bHasColor (c_defaultRole cs)
                   then color (c_defaultRole cs)
                   else RGBA 255 255 255 255), om1)
    end.

End name_color.

End NameColor.

(** ** The permission merge, for [toLowerCase] on all letters *)

Module Lowering.

Import Player.

Section lowering.

(** [String.prototype.toLowerCase].  [JS.toLowerCase] is its restriction to
    the ASCII letters; role names are free text, so the merge is given here
    once more with the function as it comes.  Everything that does not
    call it ([getRoles], the reads of [DEFAULT_PERMS], the steps on one
    permission) is shared with [Player]. *)
Context (toLowerCase : string → string).

(** one round of the loop through all the roles *)
Definition apply_role (playerRoles : list string)
  (perms : gmap string jsval) (r : role) : option (gmap string jsval) :=
  if negb (bool_decide (toLowerCase (r_name r) ∈ playerRoles)) then Some perms
  else
    defaultPerms ← defaultPerms_of (toLowerCase (r_name r));
    let perms := foldl (apply_role_default r) perms defaultPerms in
    Some (foldl apply_role_perm perms (r_permissions r)).

(** loop through all the roles *)
Fixpoint apply_roles (playerRoles : list string)
  (perms : gmap string jsval) (rs : list role) : option (gmap string jsval) :=
  match rs with
  | [] => Some perms
  | r :: rs =>
      perms ← apply_role playerRoles perms r;
      apply_roles playerRoles perms rs
  end.

(** the permission map of a player who holds the roles [held]; [None] when
    building it throws *)
Definition merge_permissions (rs : roleSetup) (held : list string)
  : option (gmap string jsval) :=
  let playerRoles := map toLowerCase held in
  let permissions := default_permissions in
  let permissions :=
    foldl apply_default permissions (r_permissions (defaultRole rs)) in
  apply_roles playerRoles permissions (roles rs).

(** [static getPermissions(omegga, id)]: how the call ends, and the state it
    leaves *)
Definition getPermissions (om : omegga) (id : string)
  : outcome loc * omegga :=
  let rs := getRoleSetup om in
  if bool_decide (host_id om = id) then
    let '(l, h) :=
      alloc (Obj (Dict (fromEntries (host_entries rs))) true) (objects om) in
    (Returned l, with_objects h om)
  else
    let '(lr, om1) := getRoles om id in
    let held := arr_elems (objects om1) lr in
    match merge_permissions rs held with
    | Some permissions =>
        let '(l, h) :=
          alloc (Obj (Dict permissions) true) (objects om1) in
        (Returned l, with_objects h om1)
    | None => (Threw, om1)
    end.

End lowering.

End Lowering.

(** ** The [Player] class: bricks inside the template bounds *)

Module Sequencing.

(** [const a = await p; ...k a]: the method [p], then the rest *)
Fixpoint bind {A B} (p : prog A) (k : A → prog B) : prog B :=
  match p with
  | Ret a => k a
  | Throw => Throw
  | Writeln line q => Writeln line (bind q k)
  | AddWatcher w c => AddWatcher w (λ ms, bind (c ms) k)
  | WatchLogChunks rs c => WatchLogChunks rs (λ dumps, bind (c dumps) k)
  end.

End Sequencing.

Module PlayerData.

Import Player Sequencing.

Section template_data.

Context {num meta : Type}.
Context (Number : option string → num).

(** A save as [getSaveData()] gives it: the bricks, the brick assets that
    [checkBounds] reads, and the rest of the save. *)
Record saveData := SaveData {
  bricks : list BrickUtil.brick;
  brick_assets : list string;
  rest : meta;
}.

(** [omegga.getSaveData()] and [brickUtils.checkBounds], which are not part
    of these sources: the first as the method it is, the second as the
    test it is. *)
Context (getSaveData : prog (option saveData)).
Context (checkBounds :
           BrickUtil.brick → list string → @templateBounds num → bool).

Definition getTemplateBoundsData (p : player) : prog (option saveData) :=
  bind (getTemplateBounds Number p)
    (λ templateBounds,
       match templateBounds with
       | None => Ret None
       | Some templateBounds =>
           bind getSaveData
             (λ saveData,
                match saveData with
                | None => Ret None
                | Some saveData =>
                    (* filter bricks outside the bounds *)
                    let bricks :=
                      List.filter
                        (λ brick,
                           checkBounds brick (brick_assets saveData)
                             templateBounds)
                        (bricks saveData) in
                    if bool_decide (0 < length bricks)%nat
                    then Ret (Some (SaveData bricks (brick_assets saveData)
                                      (rest saveData)))
                    else Ret None
                end)
       end).

End template_data.

End PlayerData.

(** ** The [Database] class: accounts *)

Module Accounts.

Import Database.

Definition is_user (d : users_doc) : bool :=
  match d with UserDoc _ => true | UsersVersion _ => false end.

(** [(await stores.users.count({type: 'user'})) === 0] *)
Definition isFirstUser (users : list users_doc) : bool :=
  bool_decide (length (List.filter is_user users) = 0%nat).

(** [insert(doc)]: the store gives the document an id of its own *)
Definition fresh_user_id (users : list users_doc) : nat :=
  S (foldr Nat.max 0%nat
       (map (λ d, match d with UserDoc u => u_id u | _ => 0%nat end) users)).

(** [createAdminUser(username, password)], run at time [now]; [hash] is
    what [bcrypt.hash(password, 10)] resolved with.  The store after the
    insert, and the user inserted. *)
Definition createAdminUser (now : Z) (hash : string)
  (users : list users_doc) (username : string) : list users_doc * user :=
  let user :=
    User (fresh_user_id users) now username hash true None [] EmptyString in
  ((users ++ [UserDoc user])%list, user).

(** the query [{$or: [{type: 'user', username: '', isOwner: true},
    {type: 'user', _id: id}]}] *)
Definition owner_or_id (i : nat) (d : users_doc) : bool :=
  match d with
  | UserDoc u =>
      (bool_decide (username u = EmptyString) && isOwner u)
      || bool_decide (u_id u = i)
  | UsersVersion _ => false
  end.

(** [findUserById(id)] *)
Definition findUserById (users : list users_doc) (i : nat) : option user :=
  match find (owner_or_id i) users with
  | Some (UserDoc u) => Some u
  | _ => None
  end.

End Accounts.

(** ** The [Database] class: store versions *)

Module Migrations.

Section stores.

(** the documents of a store other than its version entries *)
Context {D : Type}.

(** A document as [doMigrations] sees it.
    - [StoreVersion]: [{_id, type: 'storeVersion', version}];
    - [VersionOnly]: [{_id, version}], what an update by a whole document
      [{ version }] leaves of the document it replaces;
    - [Data]: any other document. *)
Inductive doc :=
| StoreVersion (i : nat) (version : Z)
| VersionOnly (i : nat) (version : Z)
| Data (i : nat) (d : D).

Definition doc_id (d : doc) : nat :=
  match d with
  | StoreVersion i _ => i
  | VersionOnly i _ => i
  | Data i _ => i
  end.

(** the query [{type: 'storeVersion'}] *)
Definition is_version (d : doc) : bool :=
  match d with StoreVersion _ _ => true | _ => false end.

(** a migration: its version, and what its upgrade does to the store *)
Record migration := Migration {
  m_version : Z;
  upgrade : list doc → list doc;
}.

(** [insert(doc)]: the store gives the document an id of its own *)
Definition fresh_id (store : list doc) : nat :=
  S (foldr Nat.max 0%nat (map doc_id store)).

(** [update({ _id }, { version })]: the first document with that id is
    replaced by the new document, which keeps the id *)
Fixpoint replace_by_version (i : nat) (version : Z) (store : list doc)
  : list doc :=
  match store with
  | [] => []
  | d :: ds =>
      if bool_decide (doc_id d = i) then VersionOnly i version :: ds
      else d :: replace_by_version i version ds
  end.

(** [for (; version < expected; version++)]: the version the loop stops at
    and the store the upgrades leave.  The loop makes at most
    [expected - version] rounds, which [rounds] counts down. *)
Fixpoint upgrade_loop (rounds : nat) (migs : list migration)
  (version expected : Z) (store : list doc) : Z * list doc :=
  match rounds with
  | O => (version, store)
  | S rounds =>
      if bool_decide (version < expected)%Z then
        match find (λ v, bool_decide (m_version v = version)) migs with
        | None => (version, store)
        | Some migration =>
            upgrade_loop rounds migs (version + 1)%Z expected
              (upgrade migration store)
        end
      else (version, store)
  end.

(** the body run for one store, with [expected = storeVersions[name]] and
    [migs = migrations[name]] *)
Definition migrate_store (expected : Z) (migs : list migration)
  (store : list doc) : list doc :=
  match find is_version store with
  | Some (StoreVersion i v) =>
      if bool_decide (expected ≠ v) then
        let '(version, store) :=
          upgrade_loop (Z.to_nat (expected - v)) migs v expected store in
        replace_by_version i version store
      else store
  | _ => (store ++ [StoreVersion (fresh_id store) expected])%list
  end.

(** current store versions *)
Definition storeVersions : gmap string Z :=
  list_to_map
    [ ("users", 1%Z); ("chat", 1%Z); ("players", 1%Z); ("status", 1%Z);
      ("server", 1%Z); ("dummy", 10%Z) ].

(** migrations to/from certain store versions *)
Definition migrations : gmap string (list migration) :=
  list_to_map
    [ ("users", []); ("chat", []); ("players", []); ("status", []);
      ("server", []); ("dummy", [Migration 1 (λ store, store)]) ].

(** the body run for the store called [name]; every store of the database
    has its name in both tables *)
Definition migrate_named (name : string) (store : list doc)
  : option (list doc) :=
  expected ← storeVersions !! name;
  migs ← migrations !! name;
  Some (migrate_store expected migs store).

Record stores := Stores {
  users : list doc;
  chat : list doc;
  players : list doc;
  status : list doc;
  server : list doc;
}.

(** [doMigrations()] *)
Definition doMigrations (s : stores) : option stores :=
  users' ← migrate_named "users" (users s);
  chat' ← migrate_named "chat" (chat s);
  players' ← migrate_named "players" (players s);
  status' ← migrate_named "status" (status s);
  server' ← migrate_named "server" (server s);
  Some (Stores users' chat' players' status' server').

End stores.

Arguments doc D : clear implicits.
Arguments migration D : clear implicits.
Arguments stores D : clear implicits.

End Migrations.

(** ** The [Database] class: instances, chat log and visits *)

Module Visits.

Section visits.

(** the user objects that a chat document carries *)
Context {U : Type}.

Inductive server_doc :=
| ServerVersion (i : nat) (version : Z)
| AppStart (i : nat) (date : Z)
| RoleDoc (i : nat) (role : string).

Definition server_doc_id (d : server_doc) : nat :=
  match d with
  | ServerVersion i _ => i
  | AppStart i _ => i
  | RoleDoc i _ => i
  end.

(** a document of type chat *)
Record chat := Chat {
  chat_id : nat;
  created : Z;
  instanceId : nat;
  action : string;
  user : U;
  message : option string;
}.

Inductive chat_doc :=
| ChatVersion (i : nat) (version : Z)
| ChatDoc (c : chat).

Definition chat_doc_id (d : chat_doc) : nat :=
  match d with ChatVersion i _ => i | ChatDoc c => chat_id c end.

(** a document of type userHistory *)
Record userHistory := UserHistory {
  h_key : nat;
  id : string;
  name : string;
  nameHistory : list (string * Z);
  ips : list string;
  h_created : Z;
  lastSeen : Z;
  lastInstanceId : nat;
  heartbeats : Z;
  sessions : Z;
  instances : Z;
}.

Inductive players_doc :=
| PlayersVersion (i : nat) (version : Z)
| History (h : userHistory).

Definition players_doc_id (d : players_doc) : nat :=
  match d with PlayersVersion i _ => i | History h => h_key h end.

(** The state the methods share: the module's [serverInstance] (the
    document cached there, as its id and date), three of the stores, and
    the dates handed to [calendar.addDate], in order.  A store is the
    list of its documents in the order in which a query goes through
    them, and an inserted document is put last. *)
Record db := DB {
  serverInstance : option (nat * Z);
  server : list server_doc;
  chats : list chat_doc;
  players : list players_doc;
  calendar : list Z;
}.

Definition fresh (ids : list nat) : nat := S (foldr Nat.max 0%nat ids).

(** [(await stores.chat.find({type: 'chat'})).map(c => c.created)] *)
Definition chat_dates (docs : list chat_doc) : list Z :=
  omap (λ d, match d with ChatDoc c => Some (created c) | _ => None end) docs.

(** [getInstanceId()], with [now] what [Date.now()] gives if it is read *)
Definition getInstanceId (now : Z) (st : db) : nat * db :=
  match serverInstance st with
  | Some (i, _) => (i, st)
  | None =>
      let i := fresh (map server_doc_id (server st)) in
      (i, DB (Some (i, now))
            (server st ++ [AppStart i now])%list
            (chats st)
            (players st)
            (calendar st ++ chat_dates (chats st))%list)
  end.

(** [addChatLog(action, user, message)]: [now1] and [now2] are the two
    readings of [Date.now()] of the method, [now3] the one of
    [getInstanceId]; the inserted document and the state *)
Definition addChatLog (now1 now2 now3 : Z) (action : string) (user : U)
  (message : option string) (st : db) : chat * db :=
  let st := DB (serverInstance st) (server st) (chats st) (players st)
              (calendar st ++ [now1])%list in
  let '(instance, st) := getInstanceId now3 st in
  let doc :=
    Chat (fresh (map chat_doc_id (chats st))) now2 instance action user
      (match message with
       | Some m => if bool_decide (m = EmptyString) then None else Some m
       | None => None
       end) in
  (doc, DB (serverInstance st) (server st) (chats st ++ [ChatDoc doc])%list
          (players st) (calendar st)).

(** the visiting player: [user.id] and [user.name] *)
Record visitor := Visitor { v_id : string; v_name : string }.

(** the query [{ id: user.id }] *)
Definition has_player_id (pid : string) (d : players_doc) : bool :=
  match d with
  | History h => bool_decide (id h = pid)
  | PlayersVersion _ _ => false
  end.

Definition findOne_player (docs : list players_doc) (pid : string)
  : option userHistory :=
  match find (has_player_id pid) docs with
  | Some (History h) => Some h
  | _ => None
  end.

(** [existing.nameHistory.some(h => h.name === user.name)] *)
Definition name_known (h : userHistory) (n : string) : bool :=
  bool_decide (n ∈ map fst (nameHistory h)).

(** what the update of [addVisit] makes of the existing document *)
Definition visit_again (now : Z) (instance : nat) (u : visitor)
  (existing : userHistory) : userHistory :=
  UserHistory (h_key existing) (id existing)
    (v_name u)
    (if name_known existing (v_name u) then nameHistory existing
     else (nameHistory existing ++ [(v_name u, now)])%list)
    (ips existing)
    (h_created existing)
    now
    instance
    (heartbeats existing)
    (sessions existing
     + (if bool_decide (lastSeen existing < now - 60 * 60 * 1000)%Z
        then 1 else 0))%Z
    (instances existing
     + (if bool_decide (lastInstanceId existing = instance)
        then 1 else 0))%Z.

(** [update({ _id: existing._id }, ...)]: the first document with that id,
    which is the document found, ids being unique *)
Fixpoint update_player (key : nat) (h' : userHistory)
  (docs : list players_doc) : list players_doc :=
  match docs with
  | [] => []
  | d :: ds =>
      if bool_decide (players_doc_id d = key) then
        match d with
        | History _ => History h' :: ds
        | PlayersVersion _ _ => d :: ds
        end
      else d :: update_player key h' ds
  end.

(** [addVisit(user)]: [now] is the method's reading of [Date.now()],
    [now'] the one of [getInstanceId]; true if this is a first visit *)
Definition addVisit (now now' : Z) (u : visitor) (st : db) : bool * db :=
  let existing := findOne_player (players st) (v_id u) in
  let '(instance, st) := getInstanceId now' st in
  match existing with
  | None =>
      let h :=
        UserHistory (fresh (map players_doc_id (players st)))
          (v_id u) (v_name u) [(v_name u, now)] [] now now instance
          0 1 1 in
      (true, DB (serverInstance st) (server st) (chats st)
               (players st ++ [History h])%list (calendar st))
  | Some existing =>
      (false, DB (serverInstance st) (server st) (chats st)
                (update_player (h_key existing)
                   (visit_again now instance u existing) (players st))
                (calendar st))
  end.

End visits.

Arguments chat U : clear implicits.
Arguments chat_doc U : clear implicits.
Arguments db U : clear implicits.

End Visits.

(** ** Further notions used to state properties *)

Module MoreProps.

Import Player Props.

(** the permission entry is listed by the default role or by some role *)
Definition listed (rs : roleSetup) (k : string) : Prop :=
  ∃ p, p_name p = k
       ∧ (p ∈ r_permissions (defaultRole rs)
          ∨ ∃ r, r ∈ roles rs ∧ p ∈ r_permissions r).

(** the player holds the role: its name is, in lower case, one of the saved
    role names in lower case *)
Definition holds (toLowerCase : string → string) (om : omegga) (id : string)
  (r : role) : Prop :=
  toLowerCase (r_name r) ∈ map toLowerCase (held_roles om id).

#[global] Instance holds_dec toLowerCase om id r :
  Decision (holds toLowerCase om id r).
Proof. unfold holds. apply _. Defined.

(** the server with another list of roles in its role setup *)
Definition with_roles (rs : list role) (om : omegga) : omegga :=
  Omegga (host_id om) (RoleSetup rs (defaultRole (getRoleSetup om)))
    (savedPlayerRoles om) (objects om).

(** the role has a color and the player holds it *)
Definition colors_player (toLowerCase : string → string) (om : omegga)
  (p : player) (role : NameColor.coloredRole) : Prop :=
  NameColor.bHasColor role = true
  ∧ holds toLowerCase om (id p) (NameColor.plain role).

(** a hex writer for samples: two hex digits for each of red, green, blue *)
Definition hex_digit (n : Z) : string :=
  match Z.to_nat n with
  | 0 => "0" | 1 => "1" | 2 => "2" | 3 => "3" | 4 => "4" | 5 => "5"
  | 6 => "6" | 7 => "7" | 8 => "8" | 9 => "9" | 10 => "a" | 11 => "b"
  | 12 => "c" | 13 => "d" | 14 => "e" | _ => "f"
  end%nat.

Definition hex_byte (v : Z) : string :=
  (hex_digit (v `div` 16) ++ hex_digit (v `mod` 16))%string.

Definition sample_hex (c : NameColor.rgba) : string :=
  (hex_byte (NameColor.r c) ++ hex_byte (NameColor.g c)
   ++ hex_byte (NameColor.b c))%string.

(** colors for the sample server: Admin is red, VIP is green *)
Definition sample_colors : NameColor.colorSetup :=
  NameColor.ColorSetup
    [ NameColor.ColoredRole (Role "VIP" []) true (NameColor.RGBA 0 255 0 255);
      NameColor.ColoredRole (Role "Admin" []) true (NameColor.RGBA 255 0 0 255);
      NameColor.ColoredRole (Role "Builder" []) true (NameColor.RGBA 0 0 255 255) ]
    (NameColor.ColoredRole (Role "Default" []) false (NameColor.RGBA 1 2 3 255))
    (NameColor.RGBA 255 255 0 255) true.

(** a save with two bricks, and a bounds test that keeps size-1 bricks *)
Definition sample_save : PlayerData.saveData (meta := string) :=
  PlayerData.SaveData
    [ BrickUtil.Brick 0 [1%Z] [] 4 0; BrickUtil.Brick 0 [2%Z] [] 4 0 ]
    ["PB_DefaultBrick"] "v10".

Definition sample_checkBounds (b : BrickUtil.brick) (assets : list string)
  (tb : @templateBounds string) : bool :=
  bool_decide (BrickUtil.size b = [1%Z]).

(** the owner account with a blank username *)
Definition blank_owner : Database.user :=
  Database.User 7 500 EmptyString "hash:" true None [] EmptyString.

(** the version of the first version entry of a store, if it has one *)
Definition first_version {D} (store : list (Migrations.doc D)) : option Z :=
  match find Migrations.is_version store with
  | Some (Migrations.StoreVersion _ v) => Some v
  | _ => None
  end.

(** the store has no version entry yet, or its first one is at version 1 *)
Definition new_or_current {D} (store : list (Migrations.doc D)) : Prop :=
  first_version store = None ∨ first_version store = Some 1%Z.

(** the store is as it was, but for a version entry put at its end *)
Definition same_data {D} (store store' : list (Migrations.doc D)) : Prop :=
  store' = store
  ∨ ∃ i v, store' = (store ++ [Migrations.StoreVersion i v])%list.

(** a users store that was left at version 0 *)
Definition old_store : list (Migrations.doc string) :=
  [ Migrations.Data 1 "alice"; Migrations.StoreVersion 2 0;
    Migrations.Data 3 "bob" ].

(** the player ids that have a history document *)
Definition player_ids (docs : list Visits.players_doc) : list string :=
  omap (λ d, match d with
             | Visits.History h => Some (Visits.id h)
             | _ => None
             end) docs.

(** a history lists each name once, the current name among them *)
Definition history_ok (h : Visits.userHistory) : Prop :=
  NoDup (map fst (Visits.nameHistory h))
  ∧ Visits.name h ∈ map fst (Visits.nameHistory h).

(** document ids are unique, a player has one history, histories are ok *)
Definition players_ok (docs : list Visits.players_doc) : Prop :=
  NoDup (map Visits.players_doc_id docs)
  ∧ NoDup (player_ids docs)
  ∧ ∀ h, Visits.History h ∈ docs → history_ok h.

(** a database in which Bob has visited once, and no instance id is known *)
Definition bob_history : Visits.userHistory :=
  Visits.UserHistory 2 "p1" "Bob" [("Bob", 1000%Z)] [] 1000 1000 5 0 1 1.

Definition sample_db : Visits.db string :=
  Visits.DB None
    [Visits.ServerVersion 1 1]
    [Visits.ChatVersion 1 1;
     Visits.ChatDoc (Visits.Chat 2 900 5 "msg" "Bob" (Some "hi"))]
    [Visits.PlayersVersion 1 1; Visits.History bob_history]
    [].

(** An engine that never answers a watcher and rejects every dump. *)
Definition dead_engine : engine := Engine (λ _, None) (λ _, None).

End MoreProps.

(** * Properties *)

Import BrickUtil Player Database Props.

Section roles_and_permissions.

Lemma alloc_fresh (o : obj) (h : gmap loc obj) : h !! (alloc o h).1 = None.
Proof. apply not_elem_of_dom, is_fresh. Qed.

Lemma alloc_new (o : obj) (h : gmap loc obj) :
  (alloc o h).2 !! (alloc o h).1 = Some o.
Proof. apply lookup_insert_eq. Qed.

Lemma alloc_old (o x : obj) (h : gmap loc obj) (l : loc) :
  h !! l = Some x → (alloc o h).2 !! l = Some x.
Proof.
  intros Hl. unfold alloc; simpl. rewrite lookup_insert_ne; [done|].
  intros <-. pose proof (alloc_fresh o h) as Hf. simpl in Hf. congruence.
Qed.

Lemma freeze_lookup (l l' : loc) (h : gmap loc obj) :
  freeze l h !! l' =
    if decide (l = l') then (λ o, Obj (payload_of o) true) <$> h !! l'
    else h !! l'.
Proof. unfold freeze. rewrite lookup_alter. by destruct (decide (l = l')) as [->|]. Qed.

Lemma arr_elems_freeze (l l' : loc) (h : gmap loc obj) :
  arr_elems (freeze l h) l' = arr_elems h l'.
Proof.
  unfold arr_elems. rewrite freeze_lookup.
  destruct (decide (l = l')); [|done].
  by destruct (h !! l') as [[[]]|].
Qed.

(** What [getRoles] returns and what it leaves. *)
Lemma getRoles_returned (om : omegga) (id : string) :
  well_formed om →
  returned (getRoles om id) = Some (Obj (Arr (held_roles om id)) true).
Proof.
  intros Hwf. unfold returned, getRoles, held_roles.
  destruct (savedPlayerRoles om !! id ≫= e_roles) as [l|] eqn:Hl; simpl.
  - destruct (savedPlayerRoles om !! id) as [e|] eqn:He; [|done]. simpl in Hl.
    destruct (Hwf id e l He Hl) as (es & fr & Hobj).
    rewrite freeze_lookup, decide_True by done.
    unfold arr_elems. by rewrite Hobj.
  - apply lookup_insert_eq.
Qed.

Lemma getRoles_held (om : omegga) (id : string) :
  arr_elems (objects (getRoles om id).2) (getRoles om id).1 = held_roles om id.
Proof.
  unfold getRoles, held_roles.
  destruct (savedPlayerRoles om !! id ≫= e_roles) as [l|]; simpl.
  - apply arr_elems_freeze.
  - unfold arr_elems. by rewrite lookup_insert_eq.
Qed.

Lemma getRoles_effect (om : omegga) (id : string) (l : loc) (o : obj) :
  objects om !! l = Some o →
  objects (getRoles om id).2 !! l = Some o
  ∨ (savedPlayerRoles om !! id ≫= e_roles = Some l
     ∧ objects (getRoles om id).2 !! l = Some (Obj (payload_of o) true)).
Proof.
  intros Ho. unfold getRoles.
  destruct (savedPlayerRoles om !! id ≫= e_roles) as [lr|]; simpl.
  - rewrite freeze_lookup. destruct (decide (lr = l)) as [->|].
    + right. by rewrite Ho.
    + by left.
  - left. by apply (alloc_old _ o).
Qed.

Lemma getRoles_reads (om : omegga) (id : string) :
  host_id (getRoles om id).2 = host_id om
  ∧ getRoleSetup (getRoles om id).2 = getRoleSetup om
  ∧ savedPlayerRoles (getRoles om id).2 = savedPlayerRoles om.
Proof.
  unfold getRoles.
  by destruct (savedPlayerRoles om !! id ≫= e_roles).
Qed.

Lemma getPermissions_result (om : omegga) (id : string) :
  result (getPermissions om id)
  = match permissions_of om id with
    | Some m => Returned (Some (Obj (Dict m) true))
    | None => Threw
    end.
Proof.
  unfold result, getPermissions, permissions_of.
  case_bool_decide; simpl.
  - f_equal. apply lookup_insert_eq.
  - pose proof (getRoles_held om id) as Hh.
    destruct (getRoles om id) as [lr om1]; simpl in *.
    rewrite Hh.
    destruct (merge_permissions (getRoleSetup om) (held_roles om id)); simpl;
      [|done].
    f_equal. apply lookup_insert_eq.
Qed.

Lemma getPermissions_effect (om : omegga) (id : string) :
  untouched_but_frozen id om (getPermissions om id).2.
Proof.
  unfold untouched_but_frozen, getPermissions.
  case_bool_decide as Hhost; simpl.
  - repeat split; try done. intros l o Ho. left. by apply (alloc_old _ o).
  - pose proof (getRoles_reads om id) as (H1 & H2 & H3).
    pose proof (getRoles_effect om id) as He.
    destruct (getRoles om id) as [lr om1]; simpl in *.
    destruct (merge_permissions (getRoleSetup om) (arr_elems (objects om1) lr));
      simpl; repeat split; try done.
    + intros l o Ho. destruct (He l o Ho) as [Hsame|[Hl Hfr]].
      * left. by apply (alloc_old _ o).
      * right. repeat split; try done. by apply (alloc_old _ _).
    + intros l o Ho. destruct (He l o Ho) as [Hsame|[Hl Hfr]]; [by left|].
      by right.
Qed.

Lemma held_roles_after (om om' : omegga) (id : string) :
  well_formed om → untouched_but_frozen id om om' →
  held_roles om' id = held_roles om id.
Proof.
  intros Hwf (_ & _ & Hsaved & Hobjs). unfold held_roles. rewrite Hsaved.
  destruct (savedPlayerRoles om !! id ≫= e_roles) as [l|] eqn:Hl; [|done].
  destruct (savedPlayerRoles om !! id) as [e|] eqn:He; [|done]. simpl in Hl.
  destruct (Hwf id e l He Hl) as (es & fr & Hobj).
  unfold arr_elems. rewrite Hobj.
  destruct (Hobjs l _ Hobj) as [->|(_ & _ & ->)]; done.
Qed.

Lemma getScaleAxis_reads_direction_rotation (b1 b2 : brick) (axis : Z) :
  direction b1 = direction b2 → rotation b1 = rotation b2 →
  getScaleAxis b1 axis = getScaleAxis b2 axis.
Proof. intros Hd Hr. unfold getScaleAxis. by rewrite Hd, Hr. Qed.

Lemma alloc_lookup (o x : obj) (h : gmap loc obj) (l : loc) :
  (alloc o h).2 !! l = Some x → h !! l = Some x ∨ (h !! l = None ∧ x = o).
Proof.
  unfold alloc; simpl. intros [[<- <-]|[_ Hl]]%lookup_insert_Some.
  - right. split; [|done]. apply not_elem_of_dom, is_fresh.
  - by left.
Qed.

(** What [getRoles] does to each object, and what it adds. *)
Lemma getRoles_exact (om : omegga) (id : string) :
  (∀ l o, objects om !! l = Some o →
     objects (getRoles om id).2 !! l
     = Some (if decide (savedPlayerRoles om !! id ≫= e_roles = Some l)
             then Obj (payload_of o) true else o))
  ∧ (∀ l o, objects om !! l = None →
       objects (getRoles om id).2 !! l = Some o → frozen o = true).
Proof.
  unfold getRoles.
  destruct (savedPlayerRoles om !! id ≫= e_roles) as [lr|]; split.
  - intros l o Ho. cbn [snd with_objects objects]. rewrite freeze_lookup.
    destruct (decide (lr = l)) as [->|Hne].
    + rewrite decide_True by done. by rewrite Ho.
    + rewrite decide_False by congruence. done.
  - intros l o Hnone. cbn [snd with_objects objects]. rewrite freeze_lookup.
    destruct (decide (lr = l)); rewrite Hnone; done.
  - intros l o Ho. case_decide; [done|]. by apply (alloc_old _ o).
  - intros l o Hnone Hl. apply alloc_lookup in Hl as [Hold|[_ ->]]; [|done].
    congruence.
Qed.

Lemma getPermissions_exact (om : omegga) (id : string) :
  freezes_saved_roles id om (getPermissions om id).2.
Proof.
  unfold freezes_saved_roles, after_call, getPermissions.
  case_bool_decide as Hhost; simpl.
  - repeat split; try done.
    + intros l o Ho. rewrite decide_False by (by intros [? _]).
      by apply (alloc_old _ o).
    + intros l o Hnone Hl. apply alloc_lookup in Hl as [Hold|[_ ->]]; [|done].
      congruence.
  - pose proof (getRoles_reads om id) as (H1 & H2 & H3).
    pose proof (getRoles_exact om id) as [Hold Hnew].
    assert (Hcase : ∀ l o, objects om !! l = Some o →
              objects (getRoles om id).2 !! l
              = Some (if decide (host_id om ≠ id
                                 ∧ savedPlayerRoles om !! id ≫= e_roles = Some l)
                      then Obj (payload_of o) true else o)).
    { intros l o Ho. rewrite (Hold l o Ho).
      destruct (decide (savedPlayerRoles om !! id ≫= e_roles = Some l)).
      - by rewrite decide_True.
      - rewrite decide_False; [done|]. by intros [_ ?]. }
    destruct (getRoles om id) as [lr om1]; simpl in *.
    destruct (merge_permissions (getRoleSetup om) (arr_elems (objects om1) lr));
      simpl; repeat split; try done.
    + intros l o Ho. apply (alloc_old _ _). by apply Hcase.
    + intros l o Hnone Hl. apply alloc_lookup in Hl as [Hl|[_ ->]]; [|done].
      by apply (Hnew l).
Qed.

(** C1, as the code has it.  [getScaleAxis] is a function of the brick's
    direction and rotation and of the axis, and a call of it leaves every
    brick, the one it is given too, as it was.  [getPermissions] ends in
    the same way, with equal objects, on equal role setup, host id and saved
    role names, also when run a second time.  It changes nothing of what it
    reads but one flag: called for a player who is not the host, it leaves
    the array of role names saved for that player frozen, with the elements
    it had; every other object of the state is as it was, and the objects
    the call adds are frozen. *)
Theorem pure_up_to_freezing :
  (∀ (b1 b2 : brick) (axis : Z),
     direction b1 = direction b2 → rotation b1 = rotation b2 →
     getScaleAxis b1 axis = getScaleAxis b2 axis)
  ∧ (∀ (bricks : gmap loc brick) (b : loc) (axis : Z),
       (getScaleAxis_call bricks b axis).2 = bricks
       ∧ ∀ brick, bricks !! b = Some brick →
           (getScaleAxis_call bricks b axis).1
           = Returned (getScaleAxis brick axis))
  ∧ (∀ (om1 om2 : omegga) (id : string),
       host_id om1 = host_id om2 →
       getRoleSetup om1 = getRoleSetup om2 →
       held_roles om1 id = held_roles om2 id →
       result (getPermissions om1 id) = result (getPermissions om2 id))
  ∧ (∀ (om : omegga) (id : string),
       well_formed om →
       result (getPermissions (getPermissions om id).2 id)
       = result (getPermissions om id))
  ∧ (∀ (om : omegga) (id : string),
       freezes_saved_roles id om (getPermissions om id).2)
  ∧ (∀ (om : omegga) (id : string) (l : loc) (es : list string) (fr : bool),
       host_id om ≠ id →
       savedPlayerRoles om !! id ≫= e_roles = Some l →
       objects om !! l = Some (Obj (Arr es) fr) →
       objects (getPermissions om id).2 !! l = Some (Obj (Arr es) true))
  ∧ (∀ (om : omegga) (id : string),
       host_id om = id ∨ savedPlayerRoles om !! id ≫= e_roles = None →
       untouched om (getPermissions om id).2).
Proof.
  split; [exact getScaleAxis_reads_direction_rotation|].
  split.
  { intros bricks b axis. unfold getScaleAxis_call.
    destruct (bricks !! b) as [brick|]; simpl; [|done].
    split; [done|]. by intros ? [= <-]. }
  assert (Hdet : ∀ om1 om2 id,
            host_id om1 = host_id om2 →
            getRoleSetup om1 = getRoleSetup om2 →
            held_roles om1 id = held_roles om2 id →
            result (getPermissions om1 id) = result (getPermissions om2 id)).
  { intros om1 om2 id Hh Hs Hr. rewrite !getPermissions_result.
    unfold permissions_of. by rewrite Hh, Hs, Hr. }
  split; [exact Hdet|]. split; [|split; [exact getPermissions_exact|split]].
  - intros om id Hwf.
    pose proof (getPermissions_effect om id) as Heff.
    apply Hdet.
    + apply Heff.
    + apply Heff.
    + by apply held_roles_after.
  - intros om id l es fr Hhost Hsaved Hobj.
    destruct (getPermissions_exact om id) as (_ & _ & _ & Hold & _).
    rewrite (Hold l _ Hobj). unfold after_call. by rewrite decide_True.
  - intros om id Hcase.
    destruct (getPermissions_exact om id) as (H1 & H2 & H3 & Hold & _).
    repeat split; try done. intros l o Ho. rewrite (Hold l o Ho).
    unfold after_call. rewrite decide_False; [done|].
    intros [Hhost Hsaved]. destruct Hcase as [?|Hnone]; [done|].
    by rewrite Hnone in Hsaved.
Qed.

(** C1 at the sample server: two servers that differ only in an object the
    call does not read give equal permission objects. *)
Lemma pure_up_to_freezing_witness :
  result (getPermissions sample_omegga "p1")
  = result (getPermissions
      (with_objects (<[5%positive := Obj (Arr ["x"]) false]> (objects sample_omegga))
         sample_omegga) "p1").
Proof.
  apply (proj1 (proj2 (proj2 pure_up_to_freezing))); vm_compute; reflexivity.
Defined.

(** C1 as stated fails: a call of [getPermissions] for a player who is not
    the host freezes the array of role names saved for that player, which
    is part of the state the call reads. *)
Lemma getPermissions_freezes_saved_roles :
  objects sample_omegga !! 1%positive = Some (Obj (Arr ["Admin"]) false)
  ∧ objects (getPermissions sample_omegga "p1").2 !! 1%positive
    = Some (Obj (Arr ["Admin"]) true)
  ∧ ¬ untouched sample_omegga (getPermissions sample_omegga "p1").2.
Proof.
  assert (H1 : objects sample_omegga !! 1%positive
               = Some (Obj (Arr ["Admin"]) false)) by (vm_compute; reflexivity).
  assert (H2 : objects (getPermissions sample_omegga "p1").2 !! 1%positive
               = Some (Obj (Arr ["Admin"]) true)) by (vm_compute; reflexivity).
  repeat split; try assumption.
  intros (_ & _ & _ & Hobjs).
  enough (Some (Obj (Arr ["Admin"]) true) = Some (Obj (Arr ["Admin"]) false))
    by discriminate.
  rewrite <- H2. exact (Hobjs _ _ H1).
Qed.

Lemma sample_omegga_well_formed : well_formed sample_omegga.
Proof.
  intros id e l He Hl. unfold sample_omegga in *; simpl in *.
  apply lookup_singleton_Some in He as [<- <-]. simpl in Hl.
  injection Hl as <-. eexists _, _. apply lookup_singleton_eq.
Qed.

Lemma defaultPerms_of_plain (key : string) :
  key ∉ Object_prototype_keys → is_Some (defaultPerms_of key).
Proof.
  intros Hkey. unfold defaultPerms_of.
  destruct (DEFAULT_PERMS !! key); [done|].
  by rewrite bool_decide_eq_false_2.
Qed.

Lemma apply_roles_plain (playerRoles : list string)
  (perms : gmap string jsval) (rs : list role) :
  Forall (λ r, toLowerCase (r_name r) ∉ Object_prototype_keys) rs →
  is_Some (apply_roles playerRoles perms rs).
Proof.
  intros Hrs. revert perms.
  induction Hrs as [|r rs Hr _ IH]; intros perms; simpl; [done|].
  unfold apply_role.
  destruct (negb _); simpl; [apply IH|].
  destruct (defaultPerms_of_plain _ Hr) as [dp ->]. simpl. apply IH.
Qed.

(** C8 fails on the code for the part on [getPermissions]: when the player
    holds a role named Constructor, the read of [DEFAULT_PERMS] at
    constructor gives the inherited member, the loop over it throws, and no
    object is returned. *)
Lemma getPermissions_throws_for_inherited_role_name :
  (getPermissions builders_omegga "p1").1 = Threw
  ∧ toLowerCase "Constructor" ∈ Object_prototype_keys.
Proof. split; [vm_compute; reflexivity|]. apply list_elem_of_here. Qed.

(** What holds of C8.  [getRoles] (static, and the instance method through
    it) returns a frozen array: the saved entry's own [roles] array when
    the entry has one, a new empty array otherwise.  Every object that
    [getPermissions] returns is frozen, and it returns one whenever no role
    name is, in lower case, a member name of [Object.prototype].  No write
    through a returned reference goes through. *)
Theorem results_are_frozen (om : omegga) (id : string) :
  well_formed om →
  (∃ es, returned (getRoles om id) = Some (Obj (Arr es) true)
     ∧ (savedPlayerRoles om !! id ≫= e_roles = None → es = [])
     ∧ (∀ l, savedPlayerRoles om !! id ≫= e_roles = Some l →
          (getRoles om id).1 = l ∧ es = arr_elems (objects om) l)
     ∧ (∀ v, array_push (getRoles om id).1 v (objects (getRoles om id).2) = None)
     ∧ array_pop (getRoles om id).1 (objects (getRoles om id).2) = None)
  ∧ (∀ p : player, id = Player.id p → getRoles_of om p = getRoles om id)
  ∧ (∀ l, (getPermissions om id).1 = Returned l →
       (∃ m, objects (getPermissions om id).2 !! l = Some (Obj (Dict m) true))
       ∧ (∀ k v, set_prop l k v (objects (getPermissions om id).2) = None)
       ∧ (∀ k, delete_prop l k (objects (getPermissions om id).2) = None))
  ∧ (plain_role_names (getRoleSetup om) →
       ∃ l, (getPermissions om id).1 = Returned l)
  ∧ (∀ p : player, id = Player.id p →
       getPermissions_of om p = getPermissions om id).
Proof.
  intros Hwf. split; [|split; [|split; [|split]]].
  - pose proof (getRoles_returned om id Hwf) as Hret.
    exists (held_roles om id). unfold returned in Hret.
    split; [exact Hret|]. split; [|split; [|split]].
    + intros Hnone. unfold held_roles. by rewrite Hnone.
    + intros l Hl. unfold getRoles, held_roles. by rewrite Hl.
    + intros v. unfold array_push. by rewrite Hret.
    + unfold array_pop. by rewrite Hret.
  - by intros p ->.
  - intros l Hl. pose proof (getPermissions_result om id) as Hres.
    unfold result in Hres. rewrite Hl in Hres.
    destruct (permissions_of om id) as [m|]; [|done].
    injection Hres as Hobj. split; [by exists m|]. split.
    + intros k v. unfold set_prop. by rewrite Hobj.
    + intros k. unfold delete_prop. by rewrite Hobj.
  - intros Hplain. unfold getPermissions.
    case_bool_decide; simpl; [by eexists|].
    destruct (getRoles om id) as [lr om1]. unfold merge_permissions.
    destruct (apply_roles_plain
                (map toLowerCase (arr_elems (objects om1) lr))
                (foldl apply_default default_permissions
                   (r_permissions (defaultRole (getRoleSetup om))))
                (roles (getRoleSetup om)) Hplain) as [m ->].
    simpl. by eexists.
  - by intros p ->.
Qed.

(** The frozen results at the sample server and player p1. *)
Lemma results_are_frozen_witness :
  (∃ es, returned (getRoles sample_omegga "p1") = Some (Obj (Arr es) true))
  ∧ ∃ l, (getPermissions sample_omegga "p1").1 = Returned l.
Proof.
  destruct (results_are_frozen sample_omegga "p1" sample_omegga_well_formed)
    as ((es & Hes & _) & _ & _ & Hret & _).
  split; [by exists es|]. apply Hret.
  repeat constructor. vm_compute. intros Hin.
  repeat (apply elem_of_cons in Hin as [[=]|Hin]).
  by apply elem_of_nil in Hin.
Defined.

End roles_and_permissions.

Section console_queries.

Context {num material : Type}.
Context (Number : option string → num).
Context (DEFAULT_MATERIALS : option string → material).

Lemma find_first_with {A} (f : A → bool) (P : A → Prop) (l : list A) (x : A) :
  (∀ y, f y = true ↔ P y) → first_with P l x → find f l = Some x.
Proof.
  intros Hf (pre & post & -> & Hx & Hpre).
  induction Hpre as [|y pre Hy _ IH]; simpl.
  - apply Hf in Hx. by rewrite Hx.
  - destruct (f y) eqn:Hfy; [|exact IH]. by apply Hf in Hfy.
Qed.

Lemma find_none_with {A} (f : A → bool) (P : A → Prop) (l : list A) :
  (∀ y, f y = true ↔ P y) → none_with P l → find f l = None.
Proof.
  intros Hf Hl. induction Hl as [|y l Hy _ IH]; simpl; [done|].
  destruct (f y) eqn:Hfy; [|exact IH]. by apply Hf in Hfy.
Qed.

Lemma owned_by_spec (ctrl : string) (r : match_rec) :
  owned_by ctrl r = true ↔ has_group "controller" (Some ctrl) r.
Proof. unfold owned_by, has_group. apply bool_decide_eq_true. Qed.

Lemma group_is_spec (key : string) (v : option string) (r : match_rec) :
  group_is key v r = true ↔ has_group key v r.
Proof. unfold group_is, has_group. apply bool_decide_eq_true. Qed.

Lemma find_owner (ctrl : string) (owners : list match_rec) (o : match_rec) :
  first_with (has_group "controller" (Some ctrl)) owners o →
  find (owned_by ctrl) owners = Some o.
Proof. apply find_first_with, owned_by_spec. Qed.

Lemma find_no_owner (ctrl : string) (owners : list match_rec) :
  none_with (has_group "controller" (Some ctrl)) owners →
  find (owned_by ctrl) owners = None.
Proof. apply find_none_with, owned_by_spec. Qed.

Lemma find_group (key : string) (v : option string) (l : list match_rec)
  (x : match_rec) :
  first_with (has_group key v) l x → find (group_is key v) l = Some x.
Proof. apply find_first_with, group_is_spec. Qed.

Lemma find_no_group (key : string) (v : option string) (l : list match_rec) :
  none_with (has_group key v) l → find (group_is key v) l = None.
Proof. apply find_none_with, group_is_spec. Qed.

(** C2.  When the owner dump has no record of the player's controller, or
    the transform-parameters dump has no record of the actor found, then
    [getGhostBrick] returns undefined; it does not throw. *)
Theorem getGhostBrick_not_found (e : engine) (p : player)
  (owners transformParams : list match_rec) :
  chunk_result e ghostOwnerReq = Some owners →
  chunk_result e transformParamsReq = Some transformParams →
  none_with (has_group "controller" (Some (controller p))) owners
  ∨ (∃ owner,
       first_with (has_group "controller" (Some (controller p))) owners owner
       ∧ none_with (has_group "actor" (groups owner !! "actor")) transformParams) →
  (run e (getGhostBrick Number p)).2 = Returned None.
Proof.
  intros Ho Ht Hmiss. unfold getGhostBrick. simpl. rewrite Ho, Ht. simpl.
  destruct Hmiss as [Hnone|(owner & Hfirst & Hnone)].
  - by rewrite (find_no_owner _ _ Hnone).
  - rewrite (find_owner _ _ _ Hfirst). by rewrite (find_no_group _ _ _ Hnone).
Qed.

(** C4.  [getPosition] runs two watched exchanges one after the other: the
    pawn of the player's controller, then the RelativeLocation of that pawn;
    it returns the captures x, y, z as numbers, in this order. *)
Theorem getPosition_returns_xyz (e : engine) (p : player)
  (m m' : match_rec) (ms ms' : list match_rec) :
  watcher_result e (pawnWatcher (controller p)) = Some (m :: ms) →
  watcher_result e (posWatcher (template (groups m !! "pawn"))) = Some (m' :: ms') →
  run e (getPosition Number p)
  = ([ Registered (pawnWatcher (controller p));
       Written (pawnCommand (controller p));
       Registered (posWatcher (template (groups m !! "pawn")));
       Written (posCommand (template (groups m !! "pawn"))) ],
     Returned [ Number (groups m' !! "x");
                Number (groups m' !! "y");
                Number (groups m' !! "z") ]).
Proof.
  intros H1 H2. unfold getPosition. simpl. rewrite H1. simpl. by rewrite H2.
Qed.

Lemma getPosition_trace (e : engine) (p : player) :
  (∃ w, (run e (getPosition Number p)).1 = addWatcher_events w
        ∧ ∃ c, w_exec w = [c])
  ∨ (∃ w w', (run e (getPosition Number p)).1
             = (addWatcher_events w ++ addWatcher_events w')%list
        ∧ (∃ c, w_exec w = [c]) ∧ (∃ c, w_exec w' = [c])).
Proof.
  unfold getPosition. simpl.
  destruct (watcher_result e (pawnWatcher (controller p))) as [[|m ms]|];
    simpl.
  - left. exists (pawnWatcher (controller p)). eauto.
  - destruct (watcher_result e (posWatcher (template (groups m !! "pawn"))))
      as [[|m' ms']|]; simpl; right;
      exists (pawnWatcher (controller p)),
             (posWatcher (template (groups m !! "pawn"))); eauto.
  - left. exists (pawnWatcher (controller p)). eauto.
Qed.

(** C3.  [getPosition] writes no line itself: its two commands are written
    by the [exec] callbacks it hands to [addWatcher], one command each.  So
    in every run, each written line comes right after the registration of
    its watcher, and each registration is followed by its one command. *)
Theorem getPosition_registers_before_writing (e : engine) (p : player) :
  (∀ line, ¬ writes_itself (getPosition Number p) line)
  ∧ (∀ w, registers (getPosition Number p) w →
       w = pawnWatcher (controller p) ∧ w_exec w = [pawnCommand (controller p)]
       ∨ ∃ pawn, w = posWatcher pawn ∧ w_exec w = [posCommand pawn])
  ∧ (∀ i line, (run e (getPosition Number p)).1 !! i = Some (Written line) →
       ∃ j w, i = S j
         ∧ (run e (getPosition Number p)).1 !! j = Some (Registered w)
         ∧ w_exec w = [line])
  ∧ (∀ i w, (run e (getPosition Number p)).1 !! i = Some (Registered w) →
       ∃ c, w_exec w = [c]
         ∧ (run e (getPosition Number p)).1 !! S i = Some (Written c)
         ∧ ∀ line, (run e (getPosition Number p)).1 !! S (S i)
                   ≠ Some (Written line)).
Proof.
  split; [|split].
  - intros line Hw. unfold getPosition in Hw.
    inversion Hw as [| |w k ms l' Hk|]; subst.
    destruct ms as [|m ms]; [inversion Hk|].
    inversion Hk as [| |w' k' ms' l'' Hk'|]; subst.
    destruct ms' as [|m' ms']; inversion Hk'.
  - intros w Hr. unfold getPosition in Hr.
    inversion Hr as [w0 k|w0 k ms w' Hk| |]; subst; [by left|].
    destruct ms as [|m ms]; [inversion Hk|].
    inversion Hk as [w0 k|w0 k ms' w'' Hk'| |]; subst; [right; eauto|].
    destruct ms' as [|m' ms']; inversion Hk'.
  - destruct (getPosition_trace e p)
      as [(w & -> & c & Hc)|(w & w' & -> & (c & Hc) & (c' & Hc'))];
      unfold addWatcher_events; rewrite ?Hc, ?Hc'; simpl; split.
    + intros [|[|[|i]]] line Hi; simplify_eq/=.
      exists 0%nat, w. by rewrite Hc.
    + intros [|[|[|i]]] w0 Hi; simplify_eq/=.
      exists c. by rewrite Hc.
    + intros [|[|[|[|[|i]]]]] line Hi; simplify_eq/=.
      * exists 0%nat, w. by rewrite Hc.
      * exists 2%nat, w'. by rewrite Hc'.
    + intros [|[|[|[|[|i]]]]] w0 Hi; simplify_eq/=.
      * exists c. by rewrite Hc.
      * exists c'. by rewrite Hc'.
Qed.

(** C5.  [getPaint] issues four chunk dumps.  It takes the first owner
    record of the player's controller and, for that record's actor, the
    first color, material and material-alpha records; it returns the
    material index and alpha as captured, the table entry of the material
    index, and the color as the numbers of the captures r, g, b.  When the
    owner record or any of the three records is missing it returns
    undefined. *)
Theorem getPaint_selects_by_owner (e : engine) (p : player)
  (owners colorMatch materialMatch materialAlphaMatch : list match_rec) :
  mapM (chunk_result e) paintReqs
  = Some [owners; colorMatch; materialMatch; materialAlphaMatch] →
  (run e (getPaint Number DEFAULT_MATERIALS p)).1 = map ChunkStarted paintReqs
  ∧ length paintReqs = 4%nat
  ∧ (none_with (has_group "controller" (Some (controller p))) owners →
       (run e (getPaint Number DEFAULT_MATERIALS p)).2 = Returned None)
  ∧ (∀ owner,
       first_with (has_group "controller" (Some (controller p))) owners owner →
       (none_with (has_group "actor" (groups owner !! "actor")) colorMatch
        ∨ none_with (has_group "actor" (groups owner !! "actor")) materialMatch
        ∨ none_with (has_group "actor" (groups owner !! "actor")) materialAlphaMatch →
          (run e (getPaint Number DEFAULT_MATERIALS p)).2 = Returned None)
       ∧ (∀ c m a,
            first_with (has_group "actor" (groups owner !! "actor")) colorMatch c →
            first_with (has_group "actor" (groups owner !! "actor")) materialMatch m →
            first_with (has_group "actor" (groups owner !! "actor")) materialAlphaMatch a →
            (run e (getPaint Number DEFAULT_MATERIALS p)).2
            = Returned (Some
                {| materialIndex := groups m !! "materialIndex";
                   materialAlpha := groups a !! "materialAlpha";
                   paint_material := DEFAULT_MATERIALS (groups m !! "materialIndex");
                   color := [ Number (groups c !! "r");
                              Number (groups c !! "g");
                              Number (groups c !! "b") ] |}))).
Proof.
  intros He. unfold getPaint. cbn [run]. rewrite He.
  split; [|split; [done|split]].
  - by split_finds.
  - intros Hnone. by rewrite (find_no_owner _ _ Hnone).
  - intros owner Hfirst. rewrite (find_owner _ _ _ Hfirst). split.
    + intros [Hn|[Hn|Hn]]; rewrite (find_no_group _ _ _ Hn); by split_finds.
    + intros c m a Hc Hm Ha.
      by rewrite (find_group _ _ _ _ Hc), (find_group _ _ _ _ Hm),
        (find_group _ _ _ _ Ha).
Qed.

(** C6.  [getTemplateBounds] returns undefined when one of its four dumps
    is empty.  Otherwise it takes the template name of the first template
    record and the first MinBounds, MaxBounds and Center records of that
    name, and returns their x, y, z as numbers; when one of the three is
    missing it returns undefined. *)
Theorem getTemplateBounds_selects_by_name (e : engine) (p : player)
  (template minBounds maxBounds centers : list match_rec) :
  mapM (chunk_result e) (templateReqs (controller p))
  = Some [template; minBounds; maxBounds; centers] →
  (template = [] ∨ minBounds = [] ∨ maxBounds = [] ∨ centers = [] →
     (run e (getTemplateBounds Number p)).2 = Returned None)
  ∧ (∀ t0 rest, template = t0 :: rest →
       (none_with (has_group "templateName" (groups t0 !! "templateName")) minBounds
        ∨ none_with (has_group "templateName" (groups t0 !! "templateName")) maxBounds
        ∨ none_with (has_group "templateName" (groups t0 !! "templateName")) centers →
          (run e (getTemplateBounds Number p)).2 = Returned None)
       ∧ (∀ mn mx c,
            first_with (has_group "templateName" (groups t0 !! "templateName")) minBounds mn →
            first_with (has_group "templateName" (groups t0 !! "templateName")) maxBounds mx →
            first_with (has_group "templateName" (groups t0 !! "templateName")) centers c →
            (run e (getTemplateBounds Number p)).2
            = Returned (Some
                {| minBound := [ Number (groups mn !! "x");
                                 Number (groups mn !! "y");
                                 Number (groups mn !! "z") ];
                   maxBound := [ Number (groups mx !! "x");
                                 Number (groups mx !! "y");
                                 Number (groups mx !! "z") ];
                   center := [ Number (groups c !! "x");
                               Number (groups c !! "y");
                               Number (groups c !! "z") ] |}))).
Proof.
  intros He. unfold getTemplateBounds. cbn [run]. rewrite He. split.
  - intros Hempty. destruct template, minBounds, maxBounds, centers; try done.
    by destruct Hempty as [?|[?|[?|?]]].
  - intros t0 rest ->. split.
    + intros [Hn|[Hn|Hn]]; rewrite (find_no_group _ _ _ Hn);
        destruct minBounds, maxBounds, centers; by split_finds.
    + intros mn mx c Hmn Hmx Hc.
      rewrite (find_group _ _ _ _ Hmn), (find_group _ _ _ _ Hmx),
        (find_group _ _ _ _ Hc).
      destruct Hmn as ([|??] & ? & -> & _), Hmx as ([|??] & ? & -> & _),
        Hc as ([|??] & ? & -> & _); done.
Qed.

Lemma issues_ret {A} (a : A) (r : chunk_req) : ¬ issues (Ret a) r.
Proof. inversion 1. Qed.

Lemma issues_throw {A} (r : chunk_req) : ¬ issues (@Throw A) r.
Proof. inversion 1. Qed.

Lemma paintReqs_keyed (r : chunk_req) : r ∈ paintReqs → keyed_by_index r.
Proof.
  unfold paintReqs. intros Hr.
  repeat (apply elem_of_cons in Hr as [->|Hr]; [by split|]).
  by apply elem_of_nil in Hr.
Qed.

Lemma ghostReqs_keyed (r : chunk_req) :
  r ∈ [ghostOwnerReq; transformParamsReq] → keyed_by_index r.
Proof.
  intros Hr.
  repeat (apply elem_of_cons in Hr as [->|Hr]; [by split|]).
  by apply elem_of_nil in Hr.
Qed.

Lemma templateReqs_keyed (ctrl : string) (r : chunk_req) :
  r ∈ templateReqs ctrl → keyed_by_index r.
Proof.
  unfold templateReqs. intros Hr.
  repeat (apply elem_of_cons in Hr as [->|Hr]; [by split|]).
  by apply elem_of_nil in Hr.
Qed.

(** C7.  Every chunk exchange that [getGhostBrick], [getPaint] and
    [getTemplateBounds] issue names the capture group index as its first
    option, and its pattern starts with that group: the counter the engine
    puts before each entry of a dump. *)
Theorem chunk_exchanges_keyed_by_index (p : player) (r : chunk_req) :
  issues (getGhostBrick Number p) r
  ∨ issues (getPaint Number DEFAULT_MATERIALS p) r
  ∨ issues (getTemplateBounds Number p) r →
  keyed_by_index r.
Proof.
  intros [H|[H|H]].
  - unfold getGhostBrick in H.
    inversion H as [rs k r0 Hin|rs k dumps r0 Hk| |]; subst.
    + by apply ghostReqs_keyed.
    + exfalso. repeat case_match;
        first [by eapply issues_ret | by eapply issues_throw].
  - unfold getPaint in H.
    inversion H as [rs k r0 Hin|rs k dumps r0 Hk| |]; subst.
    + by apply paintReqs_keyed.
    + exfalso. repeat case_match;
        first [by eapply issues_ret | by eapply issues_throw].
  - unfold getTemplateBounds in H.
    inversion H as [rs k r0 Hin|rs k dumps r0 Hk| |]; subst.
    + by apply (templateReqs_keyed (controller p)).
    + exfalso. repeat case_match;
        first [by eapply issues_ret | by eapply issues_throw].
Qed.

End console_queries.

(** C2 for a player whose controller the owner dump does not list. *)
Lemma getGhostBrick_not_found_witness :
  (run dump_engine (getGhostBrick sample_Number other_player)).2
  = Returned None.
Proof.
  eapply (getGhostBrick_not_found sample_Number dump_engine other_player);
    [reflexivity | reflexivity |].
  left. repeat constructor. vm_compute. discriminate.
Defined.

(** C3 for the sample player: the second command is written right after
    the registration of the position watcher, whose callback holds it. *)
Lemma getPosition_registers_before_writing_witness :
  ∃ w, (run position_engine (getPosition sample_Number sample_player)).1 !! 2%nat
       = Some (Registered w)
    ∧ w_exec w = [posCommand "BP_FigureV2_C_3"].
Proof.
  destruct (getPosition_registers_before_writing sample_Number
              position_engine sample_player) as (_ & _ & Hwritten & _).
  destruct (Hwritten 3%nat (posCommand "BP_FigureV2_C_3"))
    as (j & w & Hj & Hreg & Hexec); [vm_compute; reflexivity|].
  injection Hj as <-. exists w. split; [exact Hreg | exact Hexec].
Defined.

(** C4 for the sample player. *)
Lemma getPosition_returns_xyz_witness :
  (run position_engine (getPosition sample_Number sample_player)).2
  = Returned ["1.5"; "-2"; "30"].
Proof.
  rewrite (getPosition_returns_xyz sample_Number position_engine sample_player
             (captures [("pawn", "BP_FigureV2_C_3")])
             (captures [("x", "1.5"); ("y", "-2"); ("z", "30")]) [] []);
    vm_compute; reflexivity.
Defined.

(** C5 for the sample player: the paint tool the dumps list. *)
Lemma first_with_head {A} (P : A → Prop) (x : A) (l : list A) :
  P x → first_with P (x :: l) x.
Proof. intros Hx. exists [], l. repeat split; [done|constructor]. Qed.

Lemma getPaint_selects_by_owner_witness :
  (run dump_engine (getPaint sample_Number sample_materials sample_player)).2
  = Returned (Some
      {| materialIndex := Some "2";
         materialAlpha := Some "5";
         paint_material := "material 2";
         color := ["255"; "128"; "0"] |}).
Proof.
  destruct (getPaint_selects_by_owner sample_Number sample_materials
              dump_engine sample_player
              [sample_entry] [sample_entry] [sample_entry] [sample_entry]
              eq_refl) as (_ & _ & _ & Hsel).
  destruct (Hsel sample_entry) as [_ Hall].
  { apply first_with_head. vm_compute. reflexivity. }
  rewrite (Hall sample_entry sample_entry sample_entry);
    try (apply first_with_head); vm_compute; reflexivity.
Defined.

(** C6 for the sample player: the template the dumps list. *)
Lemma getTemplateBounds_selects_by_name_witness :
  (run dump_engine (getTemplateBounds sample_Number sample_player)).2
  = Returned (Some
      {| minBound := ["10"; "20"; "30"];
         maxBound := ["10"; "20"; "30"];
         center := ["10"; "20"; "30"] |}).
Proof.
  destruct (getTemplateBounds_selects_by_name sample_Number
              dump_engine sample_player
              [sample_entry] [sample_entry] [sample_entry] [sample_entry]
              eq_refl) as [_ Hsel].
  destruct (Hsel sample_entry [] eq_refl) as [_ Hall].
  rewrite (Hall sample_entry sample_entry sample_entry);
    try (apply first_with_head); vm_compute; reflexivity.
Defined.

(** C7 for the transform-parameters dump of [getGhostBrick]. *)
Lemma chunk_exchanges_keyed_by_index_witness :
  keyed_by_index transformParamsReq.
Proof.
  apply (chunk_exchanges_keyed_by_index sample_Number sample_materials
           sample_player).
  left. apply issues_here. apply list_elem_of_further, list_elem_of_here.
Defined.

(** ** The database *)

Section authentication.

Context (bcrypt_compare : string → string → bool).

Lemma user_named_spec (name : string) (d : users_doc) :
  user_named name d = true ↔ is_user_named name d.
Proof.
  unfold is_user_named. destruct d as [v|u]; simpl.
  - split; [done|]. by intros (u & ? & _).
  - rewrite bool_decide_eq_true. split.
    + intros Hu. by exists u.
    + intros (u' & [= <-] & Hu). exact Hu.
Qed.

Lemma findOne_username_none (users : list users_doc) (name : string) :
  none_with (is_user_named name) users → findOne_username users name = None.
Proof.
  intros Hn. unfold findOne_username.
  by rewrite (find_none_with _ _ _ (user_named_spec name) Hn).
Qed.

Lemma findOne_username_first (users : list users_doc) (name : string)
  (u : user) :
  first_with (is_user_named name) users (UserDoc u) →
  findOne_username users name = Some u.
Proof.
  intros Hf. unfold findOne_username.
  by rewrite (find_first_with _ _ _ _ (user_named_spec name) Hf).
Qed.

(** C9.  [authUser] returns null, without comparing the password, when no
    user has the username or when the user found is banned.  Otherwise it
    compares the password with the stored hash once, and returns the stored
    user when the comparison succeeds and null when it fails. *)
Theorem authUser_null_or_verified (users : list users_doc)
  (name password : string) :
  (none_with (is_user_named name) users →
     authUser bcrypt_compare users name password = (None, []))
  ∧ (∀ u, first_with (is_user_named name) users (UserDoc u) →
       (isBanned u = Some true →
          authUser bcrypt_compare users name password = (None, []))
       ∧ (isBanned u ≠ Some true →
            (authUser bcrypt_compare users name password).2
            = [(password, hash u)]
            ∧ (bcrypt_compare password (hash u) = true →
                 (authUser bcrypt_compare users name password).1 = Some u)
            ∧ (bcrypt_compare password (hash u) = false →
                 (authUser bcrypt_compare users name password).1 = None)))
  ∧ (∀ u, (authUser bcrypt_compare users name password).1 = Some u ↔
       first_with (is_user_named name) users (UserDoc u)
       ∧ isBanned u ≠ Some true
       ∧ bcrypt_compare password (hash u) = true).
Proof.
  split; [|split].
  - intros Hn. unfold authUser. by rewrite (findOne_username_none _ _ Hn).
  - intros u Hf. unfold authUser. rewrite (findOne_username_first _ _ _ Hf).
    split.
    + intros Hb. by rewrite bool_decide_eq_true_2.
    + intros Hb. rewrite bool_decide_eq_false_2 by done.
      by destruct (bcrypt_compare password (hash u)).
  - intros u. unfold authUser, findOne_username. split.
    + destruct (find (user_named name) users) as [[v|u']|] eqn:Hfind;
        [done| |done].
      case_bool_decide as Hb; [done|].
      destruct (bcrypt_compare password (hash u')) eqn:Hc; [|done].
      intros [= <-]. split; [|done].
      clear Hb Hc. induction users as [|d ds IH]; [done|].
      simpl in Hfind. destruct (user_named name d) eqn:Hd.
      * injection Hfind as ->. apply first_with_head.
        by apply user_named_spec.
      * destruct (IH Hfind) as (pre & post & -> & Hu & Hpre).
        exists (d :: pre), post. repeat split; [done|].
        constructor; [|done]. rewrite <- user_named_spec. by rewrite Hd.
    + intros (Hf & Hb & Hc).
      rewrite (find_first_with _ _ _ _ (user_named_spec name) Hf).
      rewrite bool_decide_eq_false_2 by done. by rewrite Hc.
Qed.

End authentication.

(** C9 for alice with the right password: one comparison, and her record. *)
Lemma authUser_null_or_verified_witness :
  authUser sample_compare sample_users "alice" "secret"
  = (Some alice, [("secret", "hash:secret")]).
Proof.
  destruct (authUser_null_or_verified sample_compare sample_users
              "alice" "secret") as (_ & Hfound & _).
  destruct (Hfound alice) as [_ Hok].
  { exists [UsersVersion 1], [UserDoc mallory]. repeat split.
    - by exists alice.
    - constructor; [|constructor]. by intros (u & ? & _). }
  destruct Hok as (Hlog & Hyes & _); [done|].
  specialize (Hyes eq_refl).
  destruct (authUser sample_compare sample_users "alice" "secret") as [r l].
  simpl in *. by subst.
Defined.

Section punchcards.

Lemma hour_in_range (now : Z) :
  (Z.to_nat (UTCDate.getUTCHours now) < 24)%nat.
Proof.
  unfold UTCDate.getUTCHours.
  pose proof (Z.mod_pos_bound (now `div` UTCDate.msPerHour) 24). lia.
Qed.

Lemma day_in_range (now : Z) : (Z.to_nat (UTCDate.getUTCDay now) < 7)%nat.
Proof.
  unfold UTCDate.getUTCDay.
  pose proof (Z.mod_pos_bound (UTCDate.Day now + 4) 7). lia.
Qed.

Lemma cell_insert (pc : list (list Z)) (row : list Z) (d h d' h' : nat)
  (v : Z) :
  pc !! d = Some row → (h < length row)%nat →
  cell (<[d := <[h := v]> row]> pc) d' h'
  = if decide (d' = d ∧ h' = h) then Some v else cell pc d' h'.
Proof.
  intros Hrow Hh. unfold cell.
  pose proof (lookup_lt_Some _ _ _ Hrow) as Hd.
  destruct (decide (d' = d)) as [->|Hne].
  - rewrite list_lookup_insert_eq by done. rewrite Hrow. simpl.
    destruct (decide (h' = h)) as [->|Hne'].
    + rewrite list_lookup_insert_eq by done. by rewrite decide_True.
    + rewrite list_lookup_insert_ne by done. rewrite decide_False; [done|].
      by intros [_ ?].
  - rewrite list_lookup_insert_ne by done. rewrite decide_False; [done|].
    by intros [? _].
Qed.

Lemma insert_7_by_24 (pc : list (list Z)) (row : list Z) (d h : nat) (v : Z) :
  is_7_by_24 pc → pc !! d = Some row →
  is_7_by_24 (<[d := <[h := v]> row]> pc).
Proof.
  intros [Hlen Hrows] Hrow. split.
  - by rewrite length_insert.
  - apply Forall_insert; [done|]. rewrite length_insert.
    by apply (Forall_lookup_1 _ _ _ _ Hrows Hrow).
Qed.

Lemma createPunchcard_7_by_24 : is_7_by_24 createPunchcard.
Proof. split; [done|]. by repeat constructor. Qed.

Lemma createPunchcard_cell (d h : nat) :
  (d < 7)%nat → (h < 24)%nat → cell createPunchcard d h = Some 0%Z.
Proof.
  intros Hd Hh. unfold cell, createPunchcard.
  rewrite lookup_replicate_2 by done.
  exact (lookup_replicate_2 24 0%Z h Hh).
Qed.

Lemma find_card_is_card (docs : list status_doc) (m y : Z) (d : status_doc) :
  find (is_card_of m y) docs = Some d →
  ∃ c, d = Punchcard c ∧ kind c = "playerCount" ∧ month c = m ∧ year c = y.
Proof.
  intros Hf. apply find_some in Hf as [_ Hd].
  destruct d as [| |c]; try done. exists c. simpl in Hd.
  apply andb_true_iff in Hd as [Hd Hy]. apply andb_true_iff in Hd as [Hk Hm].
  by rewrite !bool_decide_eq_true in *.
Qed.

Lemma find_split {A} (f : A → bool) (l : list A) (x : A) :
  find f l = Some x →
  ∃ pre post, l = (pre ++ x :: post)%list ∧ f x = true
              ∧ Forall (λ y, f y = false) pre.
Proof.
  induction l as [|a l IH]; [done|]. simpl.
  destruct (f a) eqn:Ha.
  - intros [= ->]. by exists [], l.
  - intros Hf. destruct (IH Hf) as (pre & post & -> & Hx & Hpre).
    exists (a :: pre), post. repeat split; [done|]. by constructor.
Qed.

Lemma find_app_skip {A} (f : A → bool) (pre l : list A) :
  Forall (λ y, f y = false) pre → find f (pre ++ l)%list = find f l.
Proof. induction 1 as [|a pre Ha _ IH]; simpl; [done|]. by rewrite Ha. Qed.

Lemma findOne_card_None (docs : list status_doc) (m y : Z) :
  findOne_card docs m y = None → find (is_card_of m y) docs = None.
Proof.
  unfold findOne_card. destruct (find (is_card_of m y) docs) as [d|] eqn:Hf;
    [|done].
  by destruct (find_card_is_card _ _ _ _ Hf) as (c & -> & _).
Qed.

Lemma findOne_card_Some (docs : list status_doc) (m y : Z) (c : card) :
  findOne_card docs m y = Some c → find (is_card_of m y) docs = Some (Punchcard c).
Proof.
  unfold findOne_card. destruct (find (is_card_of m y) docs) as [d|] eqn:Hf;
    [|done].
  destruct (find_card_is_card _ _ _ _ Hf) as (c' & -> & _). by intros [= ->].
Qed.

Lemma update_card_split (pre post : list status_doc) (c : card)
  (pc : list (list Z)) (time : Z) :
  NoDup (map doc_id (pre ++ Punchcard c :: post)%list) →
  update_card (c_id c) pc time (pre ++ Punchcard c :: post)%list
  = (pre ++ Punchcard (Card (c_id c) (kind c) (created c) time (month c)
                         (year c) pc) :: post)%list.
Proof.
  induction pre as [|d pre IH]; simpl; intros Hnd.
  - by rewrite bool_decide_eq_true_2.
  - apply NoDup_cons in Hnd as [Hd Hnd].
    rewrite bool_decide_eq_false_2.
    + by rewrite IH.
    + intros Heq. apply Hd. rewrite map_app. simpl.
      apply elem_of_app. right. rewrite Heq. apply list_elem_of_here.
Qed.

Lemma fresh_id_above (docs : list status_doc) (d : status_doc) :
  d ∈ docs → (doc_id d < fresh_id docs)%nat.
Proof.
  unfold fresh_id. induction 1 as [d docs|d d' docs _ IH]; simpl; lia.
Qed.

Lemma fresh_id_new (docs : list status_doc) :
  fresh_id docs ∉ map doc_id docs.
Proof.
  intros Hin. apply list_elem_of_fmap in Hin as (d & Heq & Hd).
  pose proof (fresh_id_above docs d Hd). lia.
Qed.

(** C10.  [updatePlayerPunchcard] leaves the store with a 7 by 24
    playerCount card for the UTC month and year of [now] in which the cell
    of the UTC week day and hour is the former value plus [numNewPlayers],
    every other cell is as before, and [updated] is [now].  When the month
    had no card, the former cells are all zero and the card is new;
    otherwise the card takes the place of the stored one. *)
Theorem updatePlayerPunchcard_changes_one_cell (now numNewPlayers : Z)
  (docs : list status_doc) :
  store_ok docs →
  let day := Z.to_nat (UTCDate.getUTCDay now) in
  let hour := Z.to_nat (UTCDate.getUTCHours now) in
  let m := UTCDate.getUTCMonth now in
  let y := UTCDate.getUTCFullYear now in
  ∃ docs' card',
    updatePlayerPunchcard now numNewPlayers docs = Some docs'
    ∧ findOne_card docs' m y = Some card'
    ∧ is_7_by_24 (punchcard card')
    ∧ (∃ v, cells_before docs m y day hour = Some v
          ∧ cell (punchcard card') day hour = Some (v + numNewPlayers)%Z)
    ∧ (∀ d h, ¬ (d = day ∧ h = hour) →
         cell (punchcard card') d h = cells_before docs m y d h)
    ∧ updated card' = now
    ∧ (findOne_card docs m y = None →
         (∀ d h, (d < 7)%nat → (h < 24)%nat →
            cells_before docs m y d h = Some 0%Z)
         ∧ cell (punchcard card') day hour = Some numNewPlayers
         ∧ created card' = now
         ∧ docs' = (docs ++ [Punchcard card'])%list)
    ∧ (∀ c, findOne_card docs m y = Some c →
         c_id card' = c_id c ∧ created card' = created c
         ∧ ∃ pre post, docs = (pre ++ Punchcard c :: post)%list
                       ∧ docs' = (pre ++ Punchcard card' :: post)%list)
    ∧ store_ok docs'.
Proof.
  intros [Hnd Hcards] day hour m y.
  pose proof (day_in_range now) as Hday. pose proof (hour_in_range now) as Hhour.
  fold day in Hday. fold hour in Hhour.
  unfold updatePlayerPunchcard, cells_before. cbv zeta.
  fold day hour m y.
  destruct (findOne_card docs m y) as [c|] eqn:Hfind.
  - (* the month has a card *)
    apply findOne_card_Some in Hfind.
    destruct (find_card_is_card _ _ _ _ Hfind) as (c0 & [= <-] & Hk & Hm & Hy).
    destruct (find_split _ _ _ Hfind) as (pre & post & Hdocs & Hc & Hpre).
    assert (Hin : Punchcard c ∈ docs).
    { rewrite Hdocs. apply elem_of_app. right. apply list_elem_of_here. }
    destruct (Hcards c Hin) as [Hlen Hrows].
    destruct (lookup_lt_is_Some_2 (punchcard c) day) as [row Hrow]; [lia|].
    pose proof (Forall_lookup_1 _ _ _ _ Hrows Hrow) as Hrowlen.
    simpl in Hrowlen.
    destruct (lookup_lt_is_Some_2 row hour) as [old Hold]; [lia|].
    unfold add_cell. rewrite Hrow. simpl. rewrite Hold. simpl.
    set (pc' := <[day := <[hour := (old + numNewPlayers)%Z]> row]> (punchcard c)).
    set (c' := Card (c_id c) (kind c) (created c) now (month c) (year c) pc').
    exists (pre ++ Punchcard c' :: post)%list, c'.
    assert (Hcell : ∀ d h, cell pc' d h
              = if decide (d = day ∧ h = hour) then Some (old + numNewPlayers)%Z
                else cell (punchcard c) d h).
    { intros d h. apply cell_insert; [done|lia]. }
    assert (Hok' : is_7_by_24 pc') by by apply insert_7_by_24.
    split; [|split; [|split; [|split; [|split; [|split; [|split; [|split]]]]]]].
    + f_equal. rewrite Hdocs. apply update_card_split. by rewrite <- Hdocs.
    + unfold findOne_card. rewrite (find_app_skip _ _ _ Hpre). cbn [find].
      change (is_card_of m y (Punchcard c'))
        with (is_card_of m y (Punchcard c)).
      by rewrite Hc.
    + exact Hok'.
    + exists old. split.
      * unfold cell. rewrite Hrow. exact Hold.
      * simpl. rewrite Hcell. by rewrite decide_True.
    + intros d h Hne. simpl. rewrite Hcell. by rewrite decide_False.
    + done.
    + done.
    + intros c1 [= <-]. repeat split. by exists pre, post.
    + split.
      * rewrite Hdocs in Hnd. by rewrite map_app in *.
      * intros c1 Hc1. apply elem_of_app in Hc1 as [Hc1|Hc1].
        -- apply Hcards. rewrite Hdocs. apply elem_of_app. by left.
        -- apply elem_of_cons in Hc1 as [[= ->]|Hc1]; [exact Hok'|].
           apply Hcards. rewrite Hdocs. apply elem_of_app. right.
           by apply list_elem_of_further.
  - (* the month has no card yet *)
    apply findOne_card_None in Hfind.
    assert (Hnone : Forall (λ d, is_card_of m y d = false) docs).
    { apply Forall_forall. intros d Hd.
      apply (find_none _ _ Hfind). by apply list_elem_of_In. }
    assert (Hrow : createPunchcard !! day = Some (replicate 24 0%Z)).
    { by apply lookup_replicate_2. }
    unfold set_cell. rewrite Hrow. simpl.
    rewrite bool_decide_eq_true_2 by (rewrite ?length_replicate; simpl; lia).
    set (pc' := <[day := <[hour := numNewPlayers]> (replicate 24 0%Z)]>
                  createPunchcard).
    set (c' := Card (fresh_id docs) "playerCount" now now m y pc').
    exists (docs ++ [Punchcard c'])%list, c'.
    assert (Hcell : ∀ d h, cell pc' d h
              = if decide (d = day ∧ h = hour) then Some numNewPlayers
                else cell createPunchcard d h).
    { intros d h. apply cell_insert; [done|]. rewrite length_replicate. lia. }
    assert (Hok' : is_7_by_24 pc').
    { apply insert_7_by_24; [apply createPunchcard_7_by_24|done]. }
    split; [|split; [|split; [|split; [|split; [|split; [|split; [|split]]]]]]].
    + done.
    + unfold findOne_card. rewrite (find_app_skip _ _ _ Hnone). simpl.
      by rewrite !bool_decide_eq_true_2.
    + exact Hok'.
    + exists 0%Z. split; [by apply createPunchcard_cell|].
      simpl. rewrite Hcell. by rewrite decide_True.
    + intros d h Hne. simpl. rewrite Hcell. by rewrite decide_False.
    + done.
    + intros _. split; [by apply createPunchcard_cell|].
      split; [|done]. simpl. rewrite Hcell. by rewrite decide_True.
    + done.
    + split.
      * rewrite map_app. simpl. apply NoDup_app. split; [done|]. split.
        -- intros i Hi Hi'. apply list_elem_of_singleton in Hi' as ->.
           by apply (fresh_id_new docs).
        -- apply NoDup_singleton.
      * intros c1 Hc1. apply elem_of_app in Hc1 as [Hc1|Hc1].
        -- by apply Hcards.
        -- apply list_elem_of_singleton in Hc1 as [= ->]. exact Hok'.
Qed.

End punchcards.

Lemma sample_status_ok : store_ok sample_status.
Proof.
  split.
  - simpl. apply NoDup_cons. split; [|apply NoDup_singleton].
    intros Hin. by apply list_elem_of_singleton in Hin.
  - intros c Hc. unfold sample_status in Hc.
    repeat (apply elem_of_cons in Hc as [?|Hc]; [done|]).
    by apply elem_of_nil in Hc.
Qed.

(** C10 on Monday 2 November 2026, 09:00 UTC, for three new players and a
    store that has no card yet. *)
Lemma updatePlayerPunchcard_changes_one_cell_witness :
  ∃ docs' card',
    updatePlayerPunchcard 1793610000001 3 sample_status = Some docs'
    ∧ findOne_card docs' 10 2026 = Some card'
    ∧ cell (punchcard card') 1 9 = Some 3%Z
    ∧ cell (punchcard card') 1 10 = Some 0%Z.
Proof.
  destruct (updatePlayerPunchcard_changes_one_cell 1793610000001 3
              sample_status sample_status_ok)
    as (docs' & card' & Hrun & Hfind & _ & _ & Hrest & _ & Hnew & _).
  exists docs', card'. split; [exact Hrun|]. split; [exact Hfind|].
  destruct Hnew as (Hzero & Hcell & _); [vm_compute; reflexivity|].
  split; [exact Hcell|].
  rewrite (Hrest 1%nat 10%nat).
  - apply Hzero; lia.
  - vm_compute. intros [_ [=]].
Defined.

(** * Further properties of the code *)

Import MoreProps.

Section scale_axis.

Local Open Scope Z_scope.

(** X2.  For every brick, [getScaleAxis] permutes the axes 0, 1, 2 and
    leaves every other value as it is: no two axes are sent to the same
    one. *)
Theorem getScaleAxis_permutes_axes (b : brick) :
  (∀ axis, 0 ≤ axis ≤ 2 → 0 ≤ getScaleAxis b axis ≤ 2)
  ∧ (∀ axis, ¬ (0 ≤ axis ≤ 2) → getScaleAxis b axis = axis)
  ∧ (∀ axis axis', getScaleAxis b axis = getScaleAxis b axis' → axis = axis').
Proof.
  unfold getScaleAxis.
  destruct (includes [0; 1] (direction b)), (includes [2; 3] (direction b)),
    (includes [1; 3] (rotation b));
    (split; [|split]); intros;
    repeat match goal with
      | H : context [?x =? ?y] |- _ => destruct (Z.eqb_spec x y)
      | |- context [?x =? ?y] => destruct (Z.eqb_spec x y)
      end; lia.
Qed.

End scale_axis.

Section permission_merge.

Lemma foldl_insert_lookup (es : list (string * jsval))
  (m : gmap string jsval) (k : string) (v : jsval) :
  foldl (λ m e, <[e.1 := e.2]> m) m es !! k = Some v →
  (k, v) ∈ es ∨ m !! k = Some v.
Proof.
  revert m. induction es as [|[k' v'] es IH]; intros m; simpl; [by right|].
  intros Hl. destruct (IH _ Hl) as [Hin|Hm].
  - left. by apply list_elem_of_further.
  - destruct (decide (k' = k)) as [->|Hne].
    + rewrite lookup_insert_eq in Hm. injection Hm as ->.
      left. apply list_elem_of_here.
    + rewrite lookup_insert_ne in Hm by done. by right.
Qed.

Lemma foldl_insert_is_Some (es : list (string * jsval))
  (m : gmap string jsval) (k : string) :
  (is_Some (m !! k) ∨ ∃ v, (k, v) ∈ es) →
  is_Some (foldl (λ m e, <[e.1 := e.2]> m) m es !! k).
Proof.
  revert m. induction es as [|[k' v'] es IH]; intros m; simpl.
  - intros [Hm|[v Hin]]; [done|]. by apply elem_of_nil in Hin.
  - intros [Hm|[v Hin]]; apply IH.
    + left. destruct (decide (k' = k)) as [->|Hne].
      * rewrite lookup_insert_eq. by eexists.
      * by rewrite lookup_insert_ne.
    + apply elem_of_cons in Hin as [[= <- <-]|Hin].
      * left. rewrite lookup_insert_eq. by eexists.
      * right. by exists v.
Qed.

Lemma elem_of_concat {A} (x : A) (ls : list (list A)) :
  x ∈ concat ls ↔ ∃ l, x ∈ l ∧ l ∈ ls.
Proof.
  induction ls as [|l ls IH]; simpl.
  - split; [by intros ?%elem_of_nil|]. by intros (l & _ & ?%elem_of_nil).
  - rewrite elem_of_app, IH. split.
    + intros [Hx|(l' & Hx & Hl')].
      * exists l. split; [done|apply list_elem_of_here].
      * exists l'. split; [done|by apply list_elem_of_further].
    + intros (l' & Hx & [->|Hl']%elem_of_cons); [by left|].
      right. by exists l'.
Qed.

Lemma host_entries_listed (rs : roleSetup) (k : string) (v : jsval) :
  (k, v) ∈ host_entries rs ↔ v = JBool true ∧ listed rs k.
Proof.
  unfold host_entries, listed. rewrite elem_of_app. split.
  - intros [Hd|Hr].
    + apply list_elem_of_fmap in Hd as (p & [= -> ->] & Hp).
      split; [done|]. exists p. split; [done|by left].
    + apply elem_of_concat in Hr as (es & Hkv & Hes).
      apply list_elem_of_fmap in Hes as (r & -> & Hr).
      apply list_elem_of_fmap in Hkv as (p & [= -> ->] & Hp).
      split; [done|]. exists p. split; [done|]. right. by exists r.
  - intros (-> & p & <- & [Hd|(r & Hr & Hp)]).
    + left. apply list_elem_of_fmap. by exists p.
    + right. apply elem_of_concat.
      exists (map (λ p, (p_name p, JBool true)) (r_permissions r)). split.
      * apply list_elem_of_fmap. by exists p.
      * apply list_elem_of_fmap. by exists r.
Qed.

(** X3.  For the host, [getPermissions] returns a frozen map that holds
    exactly the permission names listed by the default role or by some
    role, each with the value true; a name listed nowhere is absent, also
    when it is one of the base permissions of other players.  No held role
    is looked up, so the call neither throws nor freezes anything. *)
Theorem host_has_the_listed_permissions (om : omegga) (id : string) :
  host_id om = id →
  ∃ l m,
    (getPermissions om id).1 = Returned l
    ∧ objects (getPermissions om id).2 !! l = Some (Obj (Dict m) true)
    ∧ (∀ k, listed (getRoleSetup om) k → m !! k = Some (JBool true))
    ∧ (∀ k, ¬ listed (getRoleSetup om) k → m !! k = None)
    ∧ untouched om (getPermissions om id).2.
Proof.
  intros Hhost. unfold getPermissions. rewrite bool_decide_eq_true_2 by done.
  simpl. eexists _, _. split; [done|]. split; [apply lookup_insert_eq|].
  split; [|split].
  - intros k Hk. unfold fromEntries.
    destruct (foldl_insert_is_Some (host_entries (getRoleSetup om)) ∅ k)
      as [v Hv].
    { right. exists (JBool true). by apply host_entries_listed. }
    rewrite Hv. f_equal.
    apply foldl_insert_lookup in Hv as [Hin|Hempty]; [|done].
    by apply host_entries_listed in Hin as [-> _].
  - intros k Hk. unfold fromEntries.
    destruct (foldl _ _ _ !! k) as [v|] eqn:Hv; [|done].
    apply foldl_insert_lookup in Hv as [Hin|Hempty]; [|done].
    by apply host_entries_listed in Hin as [_ ?].
  - repeat split. intros l o Ho. by apply (alloc_old _ o).
Qed.

End permission_merge.

(** X3 at the sample server, for its host. *)
Lemma host_has_the_listed_permissions_witness :
  ∃ l m,
    (getPermissions sample_omegga "host-1").1 = Returned l
    ∧ objects (getPermissions sample_omegga "host-1").2 !! l
      = Some (Obj (Dict m) true)
    ∧ m !! "Map.Change" = Some (JBool true)
    ∧ m !! "Bricks.Load" = Some (JBool true).
Proof.
  destruct (host_has_the_listed_permissions sample_omegga "host-1" eq_refl)
    as (l & m & Hret & Hobj & Hlisted & _).
  exists l, m. split; [exact Hret|]. split; [exact Hobj|]. split.
  - apply Hlisted. exists (Permission "Map.Change" (Some "Allowed") None).
    split; [done|]. left. apply list_elem_of_here.
  - apply Hlisted. exists (Permission "Bricks.Load" (Some "Forbidden") None).
    split; [done|]. right.
    exists (Role "Admin" [Permission "Bricks.Load" (Some "Forbidden") None]).
    split; apply list_elem_of_here.
Defined.

Section held_roles_decide.

(** [String.prototype.toLowerCase], as it comes *)
Context (toLowerCase : string → string).

Lemma getPermissions_merged (om : omegga) (id : string) :
  host_id om ≠ id →
  result (Lowering.getPermissions toLowerCase om id)
  = match Lowering.merge_permissions toLowerCase (getRoleSetup om)
            (held_roles om id) with
    | Some m => Returned (Some (Obj (Dict m) true))
    | None => Threw
    end.
Proof.
  intros Hhost. unfold result, Lowering.getPermissions.
  rewrite bool_decide_eq_false_2 by done.
  pose proof (getRoles_held om id) as Hh.
  destruct (getRoles om id) as [lr om1]; simpl in *.
  rewrite Hh.
  destruct (Lowering.merge_permissions _ _ _); simpl; [|done].
  f_equal. apply lookup_insert_eq.
Qed.

Lemma apply_roles_app (playerRoles : list string) (perms : gmap string jsval)
  (rs1 rs2 : list role) :
  Lowering.apply_roles toLowerCase playerRoles perms (rs1 ++ rs2)%list
  = Lowering.apply_roles toLowerCase playerRoles perms rs1
    ≫= λ perms', Lowering.apply_roles toLowerCase playerRoles perms' rs2.
Proof.
  revert perms. induction rs1 as [|r rs1 IH]; intros perms; simpl; [done|].
  destruct (Lowering.apply_role toLowerCase playerRoles perms r); simpl;
    [apply IH|done].
Qed.

Lemma apply_roles_unheld (playerRoles : list string)
  (perms : gmap string jsval) (rs : list role) :
  Forall (λ r, toLowerCase (r_name r) ∉ playerRoles) rs →
  Lowering.apply_roles toLowerCase playerRoles perms rs = Some perms.
Proof.
  induction 1 as [|r rs Hr _ IH]; simpl; [done|].
  unfold Lowering.apply_role. rewrite bool_decide_eq_false_2 by done.
  simpl. exact IH.
Qed.

Lemma apply_roles_filter (playerRoles : list string)
  (perms : gmap string jsval) (rs : list role) :
  Lowering.apply_roles toLowerCase playerRoles perms
    (filter (λ r, toLowerCase (r_name r) ∈ playerRoles) rs)
  = Lowering.apply_roles toLowerCase playerRoles perms rs.
Proof.
  revert perms. induction rs as [|r rs IH]; intros perms; [done|].
  destruct (decide (toLowerCase (r_name r) ∈ playerRoles)) as [Hr|Hr].
  - rewrite filter_cons_True by done. simpl.
    destruct (Lowering.apply_role toLowerCase playerRoles perms r); simpl;
      [apply IH|done].
  - rewrite filter_cons_False by done. simpl. unfold Lowering.apply_role.
    rewrite bool_decide_eq_false_2 by done. simpl. apply IH.
Qed.

(** X4.  For a player who is not the host, the roles of the setup that the
    player does not hold (names compared in lower case, whatever letters
    [toLowerCase] lowers) have no part in the result: with these roles
    taken out of the setup [getPermissions] ends in the same way, with an
    equal object.  A role not held is not looked up in [DEFAULT_PERMS]
    either, whatever its name. *)
Theorem unheld_roles_are_ignored (om : omegga) (id : string) :
  host_id om ≠ id →
  result (Lowering.getPermissions toLowerCase om id)
  = result (Lowering.getPermissions toLowerCase
      (with_roles
         (filter (holds toLowerCase om id) (roles (getRoleSetup om))) om) id).
Proof.
  intros Hhost. rewrite !getPermissions_merged by done.
  unfold Lowering.merge_permissions, held_roles, holds. simpl.
  by rewrite apply_roles_filter.
Qed.

Lemma truthy_true (v : jsval) : truthy v = true → v = JBool true.
Proof. by destruct v as [|[]]. Qed.

Lemma apply_role_perm_other (perms : gmap string jsval) (q : permission)
  (k : string) :
  p_name q ≠ k → apply_role_perm perms q !! k = perms !! k.
Proof.
  intros Hne. unfold apply_role_perm. by rewrite !lookup_insert_ne.
Qed.

Lemma apply_role_perms_other (perms : gmap string jsval)
  (ps : list permission) (k : string) :
  Forall (λ q, p_name q ≠ k) ps →
  foldl apply_role_perm perms ps !! k = perms !! k.
Proof.
  intros Hps. revert perms.
  induction Hps as [|q ps Hq _ IH]; intros perms; simpl; [done|].
  rewrite IH. by apply apply_role_perm_other.
Qed.

Lemma apply_role_default_keeps (r : role) (perms : gmap string jsval)
  (dps : list string) (k : string) :
  perms !! k = Some (JBool true) →
  foldl (apply_role_default r) perms dps !! k = Some (JBool true).
Proof.
  revert perms. induction dps as [|d dps IH]; intros perms Hk; simpl; [done|].
  apply IH. unfold apply_role_default.
  destruct (find _ _); [done|].
  destruct (decide (d = k)) as [->|Hne].
  - apply lookup_insert_eq.
  - by rewrite lookup_insert_ne.
Qed.

Lemma apply_role_default_sets (r : role) (perms : gmap string jsval)
  (dps : list string) (k : string) :
  k ∈ dps → Forall (λ q, p_name q ≠ k) (r_permissions r) →
  foldl (apply_role_default r) perms dps !! k = Some (JBool true).
Proof.
  intros Hk Hr. revert perms.
  induction Hk as [k dps|k d dps _ IH]; intros perms; simpl.
  - apply apply_role_default_keeps. unfold apply_role_default.
    assert (find (λ q, bool_decide (p_name q = k)) (r_permissions r) = None)
      as ->.
    { apply (find_none_with _ (λ q, p_name q = k)); [|exact Hr].
      intros q. apply bool_decide_eq_true. }
    apply lookup_insert_eq.
  - by apply IH.
Qed.

Lemma apply_role_perm_last (perms : gmap string jsval) (p : permission) :
  (p_state p = Some "Forbidden" → p_bEnabled p ≠ Some true →
   truthy (get (apply_role_perm perms p) (p_name p)) = false)
  ∧ (p_state p = Some "Allowed" ∨ p_bEnabled p = Some true →
     apply_role_perm perms p !! p_name p = Some (JBool true)).
Proof.
  unfold apply_role_perm, get, state_is. rewrite !lookup_insert_eq. simpl.
  split.
  - intros Hs Hb. rewrite Hs. simpl.
    by destruct (p_bEnabled p) as [[]|].
  - intros [Hs|Hb].
    + rewrite Hs. simpl.
      destruct (perms !! p_name p) as [[|[]]|], (p_bEnabled p) as [[]|];
        done.
    + rewrite Hb.
      destruct (p_state p) as [s|]; simpl;
        repeat case_bool_decide; simpl;
        destruct (perms !! p_name p) as [[|[]]|]; done.
Qed.

(** X5.  For a player who is not the host, the last role of the setup that
    the player holds decides (names compared in lower case, whatever
    letters [toLowerCase] lowers).  Each default permission of that role's
    name ([DEFAULT_PERMS]) that the role does not list itself ends as true.
    For a permission whose name is no member name of [Object.prototype],
    so that a read of the permissions object at it gives the object's own
    entry: if its last entry in that role is Forbidden, without bEnabled
    true, it ends as not granted, whatever earlier roles or the defaults
    gave; if its last entry is Allowed or has bEnabled true, it ends as
    true. *)
Theorem last_held_role_decides (om : omegga) (id : string)
  (pre post : list role) (r : role) (m : gmap string jsval) :
  host_id om ≠ id →
  roles (getRoleSetup om) = (pre ++ r :: post)%list →
  holds toLowerCase om id r →
  Forall (λ r', ¬ holds toLowerCase om id r') post →
  result (Lowering.getPermissions toLowerCase om id)
  = Returned (Some (Obj (Dict m) true)) →
  (∀ dps perm,
     DEFAULT_PERMS !! toLowerCase (r_name r) = Some dps → perm ∈ dps →
     Forall (λ q, p_name q ≠ perm) (r_permissions r) →
     m !! perm = Some (JBool true))
  ∧ (∀ ps1 p ps2,
       r_permissions r = (ps1 ++ p :: ps2)%list →
       Forall (λ q, p_name q ≠ p_name p) ps2 →
       p_name p ∉ Object_prototype_keys →
       (p_state p = Some "Forbidden" → p_bEnabled p ≠ Some true →
        truthy (get m (p_name p)) = false)
       ∧ (p_state p = Some "Allowed" ∨ p_bEnabled p = Some true →
          m !! p_name p = Some (JBool true))).
Proof.
  intros Hhost Hroles Hheld Hpost Hres.
  rewrite getPermissions_merged in Hres by done.
  destruct (Lowering.merge_permissions _ _ _) as [m'|] eqn:Hm; [|done].
  injection Hres as <-.
  unfold Lowering.merge_permissions in Hm. rewrite Hroles in Hm.
  rewrite apply_roles_app in Hm.
  destruct (Lowering.apply_roles _ _ _ pre) as [m1|]; [|done]. simpl in Hm.
  unfold Lowering.apply_role in Hm.
  rewrite bool_decide_eq_true_2 in Hm by done.
  simpl in Hm.
  destruct (defaultPerms_of (toLowerCase (r_name r))) as [dps0|] eqn:Hdps;
    [|done].
  simpl in Hm. rewrite apply_roles_unheld in Hm by done.
  injection Hm as <-. split.
  - intros dps perm Hown Hperm Hunlisted.
    unfold defaultPerms_of in Hdps. rewrite Hown in Hdps.
    injection Hdps as <-.
    rewrite apply_role_perms_other by done.
    by apply apply_role_default_sets.
  - intros ps1 p ps2 Hps Hps2 _. rewrite Hps.
    rewrite foldl_app. simpl.
    unfold get. rewrite !apply_role_perms_other by done.
    apply apply_role_perm_last.
Qed.

End held_roles_decide.

(** With the ASCII [toLowerCase], the merge is the one of [Player]. *)
Lemma getPermissions_ascii (om : omegga) (id : string) :
  Lowering.getPermissions toLowerCase om id = getPermissions om id.
Proof. reflexivity. Qed.

(** X4 at the sample server, for player p2, who holds no role. *)
Lemma unheld_roles_are_ignored_witness :
  result (Lowering.getPermissions toLowerCase sample_omegga "p2")
  = result (Lowering.getPermissions toLowerCase
              (with_roles [] sample_omegga) "p2").
Proof.
  rewrite (unheld_roles_are_ignored toLowerCase sample_omegga "p2"); [|done].
  reflexivity.
Defined.

(** X5 at the sample server, where p1 holds Admin and Admin forbids
    Bricks.Load: the other admin defaults are granted, Bricks.Load is not. *)
Lemma last_held_role_decides_witness :
  ∃ m, result (Lowering.getPermissions toLowerCase sample_omegga "p1")
       = Returned (Some (Obj (Dict m) true))
    ∧ m !! "Bricks.ClearAll" = Some (JBool true)
    ∧ truthy (get m "Bricks.Load") = false.
Proof.
  destruct (permissions_of sample_omegga "p1") as [m|] eqn:Hm;
    [|by vm_compute in Hm].
  exists m.
  assert (Hres : result (Lowering.getPermissions toLowerCase sample_omegga "p1")
                 = Returned (Some (Obj (Dict m) true))).
  { rewrite getPermissions_ascii, getPermissions_result. by rewrite Hm. }
  split; [exact Hres|].
  destruct (last_held_role_decides toLowerCase sample_omegga "p1" []
              [] (Role "Admin" [Permission "Bricks.Load" (Some "Forbidden") None])
              m) as [Hdef Hlast]; try done.
  - vm_compute. apply list_elem_of_here.
  - split.
    + eapply Hdef.
      * vm_compute. reflexivity.
      * apply list_elem_of_here.
      * repeat constructor. simpl. discriminate.
    + apply (Hlast [] (Permission "Bricks.Load" (Some "Forbidden") None) []);
        try done.
      vm_compute. intros Hin.
      repeat (apply elem_of_cons in Hin as [[=]|Hin]).
      by apply elem_of_nil in Hin.
Defined.

Section name_color.

Import NameColor.

(** [String.prototype.toLowerCase], as it comes *)
Context (toLowerCase : string → string).
Context (rgbToHex : rgba → string).

Lemma colored_and_held_spec (om : omegga) (p : player) (role : coloredRole) :
  colored_and_held toLowerCase
    (map toLowerCase (held_roles om (id p))) role = true
  ↔ colors_player toLowerCase om p role.
Proof.
  unfold colored_and_held, colors_player, holds.
  rewrite andb_true_iff, bool_decide_eq_true. done.
Qed.

Lemma find_last_with {A} (f : A → bool) (P : A → Prop)
  (pre post : list A) (x : A) :
  (∀ y, f y = true ↔ P y) → P x → Forall (λ y, ¬ P y) post →
  find f (rev (pre ++ x :: post)) = Some x.
Proof.
  intros Hf Hx Hpost. rewrite rev_app_distr. simpl. rewrite <- app_assoc.
  apply (find_first_with f P); [done|].
  exists (rev post), (rev pre). repeat split; [done|].
  apply Forall_forall. intros y Hy. apply list_elem_of_In, in_rev in Hy.
  apply (proj1 (Forall_forall _ _) Hpost). by apply list_elem_of_In.
Qed.

(** X6.  [getNameColor] gives the owner color to the host when the owner
    role has one, and then touches nothing.  Otherwise it gives the color of
    the last role in the setup that has a color and that the player holds
    (names compared in lower case, whatever letters [toLowerCase] lowers);
    when there is none, the default role's color if it has one, and white
    if not. *)
Theorem name_color_of_highest_role (cs : colorSetup) (om : omegga)
  (p : player) :
  (isHost om p = true → bOwnerRoleHasColor cs = true →
     getNameColor toLowerCase rgbToHex cs om p
     = (rgbToHex (ownerRoleColor cs), om))
  ∧ (isHost om p && bOwnerRoleHasColor cs = false →
     (∀ pre role post,
        c_roles cs = (pre ++ role :: post)%list →
        colors_player toLowerCase om p role →
        Forall (λ role', ¬ colors_player toLowerCase om p role') post →
        (getNameColor toLowerCase rgbToHex cs om p).1
        = rgbToHex (color role))
     ∧ (Forall (λ role', ¬ colors_player toLowerCase om p role')
          (c_roles cs) →
        (getNameColor toLowerCase rgbToHex cs om p).1
        = rgbToHex (if bHasColor (c_defaultRole cs)
                    then color (c_defaultRole cs)
                    else RGBA 255 255 255 255))).
Proof.
  split.
  - intros Hhost Hown. unfold getNameColor. by rewrite Hhost, Hown.
  - intros Hnot. unfold getNameColor. rewrite Hnot.
    unfold getRoles_of.
    pose proof (getRoles_held om (id p)) as Hheld.
    destruct (getRoles om (id p)) as [lr om1]. simpl in Hheld.
    rewrite Hheld. split.
    + intros pre role post Hroles Hrole Hpost.
      rewrite bool_decide_eq_true_2.
      * rewrite Hroles.
        rewrite (find_last_with _ (colors_player toLowerCase om p)
                   pre post role); [done| |done|done].
        intros y. apply colored_and_held_spec.
      * destruct Hrole as [_ Hin]. unfold holds in Hin.
        destruct (map toLowerCase (held_roles om (id p)));
          [by apply elem_of_nil in Hin|simpl; lia].
    + intros Hnone.
      assert (find (colored_and_held toLowerCase
                      (map toLowerCase (held_roles om (id p))))
                (rev (c_roles cs)) = None) as Hfind.
      { apply (find_none_with _ (colors_player toLowerCase om p)).
        - intros y. apply colored_and_held_spec.
        - apply Forall_forall. intros y Hy.
          apply list_elem_of_In, in_rev in Hy.
          apply (proj1 (Forall_forall _ _) Hnone). by apply list_elem_of_In. }
      rewrite Hfind. by case_bool_decide.
Qed.

End name_color.

(** X6 at the sample server: p1 holds Admin, which is red; VIP comes
    earlier and Builder is not held. *)
Lemma name_color_of_highest_role_witness :
  (NameColor.getNameColor toLowerCase sample_hex sample_colors sample_omegga
     (MkPlayer "Bob" "p1" "c" "s")).1 = "ff0000".
Proof.
  destruct (name_color_of_highest_role toLowerCase sample_hex sample_colors
              sample_omegga (MkPlayer "Bob" "p1" "c" "s")) as [_ Hrest].
  destruct Hrest as [Hlast _]; [by vm_compute|].
  rewrite (Hlast
    [NameColor.ColoredRole (Role "VIP" []) true (NameColor.RGBA 0 255 0 255)]
    (NameColor.ColoredRole (Role "Admin" []) true (NameColor.RGBA 255 0 0 255))
    [NameColor.ColoredRole (Role "Builder" []) true (NameColor.RGBA 0 0 255 255)]).
  - by vm_compute.
  - done.
  - split; [done|]. vm_compute. apply list_elem_of_here.
  - repeat constructor. intros [_ Hin]. vm_compute in Hin.
    apply elem_of_cons in Hin as [[=]|Hin]. by apply elem_of_nil in Hin.
Defined.

Section template_data.

Import Sequencing PlayerData.

Context {num meta : Type}.
Context (Number : option string → num).
Context (getSaveData : prog (option (saveData (meta := meta)))).
Context (checkBounds :
           brick → list string → @templateBounds num → bool).

(** Running [p] and then the rest: the events follow each other, and a
    throw of [p] ends the method. *)
Lemma run_bind {A B} (e : engine) (p : prog A) (k : A → prog B) :
  run e (bind p k)
  = match run e p with
    | (t, Returned a) => ((t ++ (run e (k a)).1)%list, (run e (k a)).2)
    | (t, Threw) => (t, Threw)
    end.
Proof.
  induction p as [a| |line q IH|w c IH|rs c IH]; simpl.
  - by destruct (run e (k a)).
  - done.
  - rewrite IH. destruct (run e q) as [t [a|]]; [|done].
    by destruct (run e (k a)).
  - destruct (watcher_result e w) as [ms|]; [|done].
    rewrite IH. destruct (run e (c ms)) as [t [a|]]; [|done].
    destruct (run e (k a)). simpl. by rewrite app_assoc.
  - destruct (mapM (chunk_result e) rs) as [dumps|]; [|done].
    rewrite IH. destruct (run e (c dumps)) as [t [a|]]; [|done].
    destruct (run e (k a)). simpl. by rewrite app_assoc.
Qed.

(** X7.  [getTemplateBoundsData] asks for the save only when the template
    bounds are known: without bounds it returns undefined with no more
    events than those of [getTemplateBounds].  A save it returns is the one
    [getSaveData] gave with its bricks narrowed, in order, to those that
    pass [checkBounds]; it never returns a save without bricks. *)
Theorem getTemplateBoundsData_in_bounds (e : engine) (p : player) :
  ((run e (getTemplateBounds Number p)).2 = Returned None →
     run e (getTemplateBoundsData Number getSaveData checkBounds p)
     = ((run e (getTemplateBounds Number p)).1, Returned None))
  ∧ (∀ sd,
       (run e (getTemplateBoundsData Number getSaveData checkBounds p)).2
       = Returned (Some sd) →
       bricks sd ≠ []
       ∧ ∃ tb sd0,
           (run e (getTemplateBounds Number p)).2 = Returned (Some tb)
           ∧ (run e getSaveData).2 = Returned (Some sd0)
           ∧ bricks sd
             = List.filter (λ b, checkBounds b (brick_assets sd0) tb)
                 (bricks sd0)
           ∧ Forall (λ b, checkBounds b (brick_assets sd0) tb = true)
               (bricks sd)
           ∧ brick_assets sd = brick_assets sd0
           ∧ rest sd = rest sd0).
Proof.
  unfold getTemplateBoundsData. rewrite run_bind.
  destruct (run e (getTemplateBounds Number p)) as [t [[tb|]|]]; simpl.
  - split; [done|]. intros sd. rewrite run_bind.
    destruct (run e getSaveData) as [t' [[sd0|]|]]; simpl; try done.
    case_bool_decide as Hlen; simpl; [|done].
    intros [= <-]. simpl. split.
    + intros Hnil. rewrite Hnil in Hlen. simpl in Hlen. lia.
    + exists tb, sd0. repeat split.
      apply Forall_forall. intros b Hb.
      apply list_elem_of_In, filter_In in Hb. apply Hb.
  - split; [|done]. intros _. by rewrite app_nil_r.
  - split; done.
Qed.

End template_data.

(** X7 for an engine whose dumps hold the sample player's template and a
    save of two bricks, one of them in bounds. *)
Lemma getTemplateBoundsData_in_bounds_witness :
  ∃ sd,
    (run dump_engine
       (PlayerData.getTemplateBoundsData sample_Number
          (Ret (Some sample_save)) sample_checkBounds sample_player)).2
    = Returned (Some sd)
    ∧ PlayerData.bricks sd = [Brick 0 [1%Z] [] 4 0].
Proof.
  eexists. split; [vm_compute; reflexivity|].
  destruct (getTemplateBoundsData_in_bounds sample_Number
              (Ret (Some sample_save)) sample_checkBounds dump_engine
              sample_player) as [_ Hsd].
  destruct (Hsd (PlayerData.SaveData [Brick 0 [1%Z] [] 4 0]
                   ["PB_DefaultBrick"] "v10"))
    as (_ & tb & sd0 & _ & Hsave & Hbricks & _);
    [vm_compute; reflexivity|].
  reflexivity.
Defined.

Section accounts.

Import Accounts.

Context (bcrypt_compare : string → string → bool).

Lemma is_user_named_created (users : list users_doc) (name : string)
  (u : user) :
  none_with (is_user_named name) users → username u = name →
  first_with (is_user_named name) (users ++ [UserDoc u])%list (UserDoc u).
Proof.
  intros Hnone Hname. exists users, []. repeat split; [|done].
  by exists u.
Qed.

Lemma isFirstUser_spec (users : list users_doc) :
  isFirstUser users = true ↔ ∀ u, UserDoc u ∉ users.
Proof.
  unfold isFirstUser. rewrite bool_decide_eq_true.
  induction users as [|d users IH]; simpl.
  - split; [|done]. intros _ u Hu. by apply elem_of_nil in Hu.
  - destruct d as [v|u']; simpl.
    + rewrite IH. split.
      * intros Hno u Hu. apply elem_of_cons in Hu as [[=]|Hu].
        by apply (Hno u).
      * intros Hno u Hu. apply (Hno u). by apply list_elem_of_further.
    + split; [done|]. intros Hno. exfalso. apply (Hno u').
      apply list_elem_of_here.
Qed.

(** X8.  An account made by [createAdminUser] is an owner without roles or
    player id, and the store is no longer waiting for its first user
    ([isFirstUser], which is true exactly when the store has no user).
    When no user had that username before, [authUser] with the password
    that the stored hash verifies returns this account, after one
    comparison, and returns null for a password it does not verify. *)
Theorem created_admin_can_log_in (now : Z) (hash : string)
  (users : list users_doc) (name password : string) :
  none_with (is_user_named name) users →
  let users' := (createAdminUser now hash users name).1 in
  let u := (createAdminUser now hash users name).2 in
  (isOwner u = true ∧ u_roles u = [] ∧ playerId u = EmptyString
   ∧ isBanned u = None ∧ u_created u = now)
  ∧ isFirstUser users' = false
  ∧ (isFirstUser users = true ↔ ∀ u0, UserDoc u0 ∉ users)
  ∧ (bcrypt_compare password hash = true →
       authUser bcrypt_compare users' name password
       = (Some u, [(password, hash)]))
  ∧ (bcrypt_compare password hash = false →
       authUser bcrypt_compare users' name password
       = (None, [(password, hash)])).
Proof.
  intros Hnone users' u. unfold users', u, createAdminUser. simpl.
  split; [done|]. split; [|split; [apply isFirstUser_spec|]].
  - apply not_true_is_false. rewrite isFirstUser_spec. intros Hno.
    eapply Hno. apply elem_of_app. right. apply list_elem_of_here.
  - unfold authUser.
    rewrite (findOne_username_first _ _ _
               (is_user_named_created users name
                  (User (fresh_user_id users) now name hash true None []
                     EmptyString) Hnone eq_refl)).
    simpl. split; intros ->; done.
Qed.

Lemma owner_or_id_spec (i : nat) (d : users_doc) :
  owner_or_id i d = true
  ↔ ∃ u, d = UserDoc u
         ∧ ((username u = EmptyString ∧ isOwner u = true) ∨ u_id u = i).
Proof.
  destruct d as [v|u]; simpl.
  - split; [done|]. by intros (u & ? & _).
  - rewrite orb_true_iff, andb_true_iff, !bool_decide_eq_true. split.
    + intros H. by exists u.
    + by intros (u' & [= <-] & H).
Qed.

(** X9.  [findUserById] returns a user of the store that is the owner with
    the blank username or has the given id, and null only when the store
    has neither.  So once an owner with a blank username exists, every id,
    known or not, resolves to some user. *)
Theorem findUserById_owner_or_id (users : list users_doc) (i : nat) :
  (∀ u, findUserById users i = Some u →
     UserDoc u ∈ users
     ∧ ((username u = EmptyString ∧ isOwner u = true) ∨ u_id u = i))
  ∧ (findUserById users i = None ↔
       ∀ u, UserDoc u ∈ users →
         ¬ ((username u = EmptyString ∧ isOwner u = true) ∨ u_id u = i))
  ∧ (∀ o, UserDoc o ∈ users → username o = EmptyString →
       isOwner o = true → ∀ j, is_Some (findUserById users j)).
Proof.
  assert (Hnone : ∀ j, findUserById users j = None ↔
            ∀ u, UserDoc u ∈ users →
              ¬ ((username u = EmptyString ∧ isOwner u = true) ∨ u_id u = j)).
  { intros j. unfold findUserById.
    destruct (find (owner_or_id j) users) as [d|] eqn:Hfind.
    - apply find_some in Hfind as [Hin Hd].
      apply owner_or_id_spec in Hd as (u & -> & Hu).
      split; [done|]. intros Hno. exfalso. apply (Hno u); [|done].
      by apply list_elem_of_In.
    - split; [|done]. intros _ u Hin Hu.
      pose proof (find_none _ _ Hfind (UserDoc u)) as Hf.
      rewrite (proj2 (owner_or_id_spec j (UserDoc u))) in Hf.
      + discriminate Hf. by apply list_elem_of_In.
      + by exists u. }
  split; [|split; [apply Hnone|]].
  - intros u. unfold findUserById.
    destruct (find (owner_or_id i) users) as [d|] eqn:Hfind; [|done].
    apply find_some in Hfind as [Hin Hd].
    apply owner_or_id_spec in Hd as (u' & -> & Hu).
    intros [= <-]. split; [by apply list_elem_of_In|done].
  - intros o Hin Hblank Howner j.
    destruct (findUserById users j) as [u|] eqn:Hf; [by eexists|].
    exfalso. apply (proj1 (Hnone j) Hf o Hin). by left.
Qed.

End accounts.

(** X8 for a first account on an empty store. *)
Lemma created_admin_can_log_in_witness :
  authUser sample_compare
    (Accounts.createAdminUser 1000 "hash:secret" [UsersVersion 1] "root").1
    "root" "secret"
  = (Some (User 1 1000 "root" "hash:secret" true None [] EmptyString),
     [("secret", "hash:secret")]).
Proof.
  apply (created_admin_can_log_in sample_compare 1000 "hash:secret"
           [UsersVersion 1] "root" "secret").
  - repeat constructor. by intros (u & ? & _).
  - reflexivity.
Defined.

(** X9 with the blank owner in the store: an id nobody has still resolves,
    to the owner. *)
Lemma findUserById_owner_or_id_witness :
  is_Some (Accounts.findUserById
             [UsersVersion 1; UserDoc alice; UserDoc blank_owner] 99).
Proof.
  destruct (findUserById_owner_or_id
              [UsersVersion 1; UserDoc alice; UserDoc blank_owner] 0)
    as (_ & _ & Hany).
  apply (Hany blank_owner).
  - do 2 apply list_elem_of_further. apply list_elem_of_here.
  - reflexivity.
  - reflexivity.
Defined.

Section store_versions.

Import Migrations.

Context {D : Type}.

Lemma find_version_split (store : list (doc D)) (d : doc D) :
  find is_version store = Some d →
  ∃ i v pre post,
    d = StoreVersion i v ∧ store = (pre ++ StoreVersion i v :: post)%list
    ∧ Forall (λ y, is_version y = false) pre.
Proof.
  intros Hf. destruct (find_split _ _ _ Hf) as (pre & post & -> & Hd & Hpre).
  destruct d as [i v| |]; try done. by exists i, v, pre, post.
Qed.

Lemma find_version_app (pre post : list (doc D)) (i : nat) (v : Z) :
  Forall (λ y, is_version y = false) pre →
  find is_version (pre ++ StoreVersion i v :: post)%list
  = Some (StoreVersion i v).
Proof. intros Hpre. by rewrite find_app_skip. Qed.

Lemma find_version_none (store : list (doc D)) :
  first_version store = None → find is_version store = None.
Proof.
  unfold first_version.
  destruct (find is_version store) as [d|] eqn:Hf; [|done].
  by destruct (find_version_split _ _ Hf) as (i & v & pre & post & -> & _).
Qed.

Lemma migrate_store_new (expected : Z) (migs : list (migration D))
  (store : list (doc D)) :
  first_version store = None →
  migrate_store expected migs store
  = (store ++ [StoreVersion (fresh_id store) expected])%list.
Proof.
  intros Hnone. unfold migrate_store. by rewrite find_version_none.
Qed.

Lemma migrate_store_current (expected : Z) (migs : list (migration D))
  (store : list (doc D)) :
  first_version store = Some expected →
  migrate_store expected migs store = store.
Proof.
  unfold first_version, migrate_store.
  destruct (find is_version store) as [[i v| |]|]; try done.
  intros [= ->]. by rewrite bool_decide_eq_false_2 by (by intros ?).
Qed.

Lemma first_version_added (store : list (doc D)) (i : nat) (v : Z) :
  first_version store = None →
  first_version (store ++ [StoreVersion i v])%list = Some v.
Proof.
  intros Hnone. apply find_version_none in Hnone. unfold first_version.
  rewrite find_app_skip; [done|].
  apply Forall_forall. intros d Hd.
  apply (find_none _ _ Hnone). by apply list_elem_of_In.
Qed.

Lemma migrate_named_settles (name : string) (store : list (doc D)) :
  name ∈ ["users"; "chat"; "players"; "status"; "server"] →
  new_or_current store →
  ∃ store', migrate_named name store = Some store'
    ∧ first_version store' = Some 1%Z
    ∧ same_data store store'
    ∧ migrate_named name store' = Some store'.
Proof.
  intros Hname Hstore.
  assert (Hrun : ∀ s : list (doc D),
            migrate_named name s = Some (migrate_store 1 [] s)).
  { intros s. unfold migrate_named.
    repeat (apply elem_of_cons in Hname as [->|Hname]; [done|]).
    by apply elem_of_nil in Hname. }
  exists (migrate_store 1 [] store). rewrite !Hrun.
  destruct Hstore as [Hnew|Hcur].
  - rewrite (migrate_store_new _ _ _ Hnew).
    pose proof (first_version_added store (fresh_id store) 1 Hnew) as Hf.
    split; [done|]. split; [done|]. split.
    + right. by eexists _, _.
    + by rewrite (migrate_store_current _ _ _ Hf).
  - rewrite !(migrate_store_current _ _ _ Hcur).
    split; [done|]. split; [done|]. split; [by left|done].
Qed.

(** X10.  On stores that are new (no version entry) or current (first
    version entry at 1), [doMigrations] gives every store a version entry
    at 1, adding one at the end of a new store and changing no other
    document; run again, it changes nothing. *)
Theorem doMigrations_settles (s : stores D) :
  new_or_current (users s) → new_or_current (chat s) →
  new_or_current (players s) → new_or_current (status s) →
  new_or_current (server s) →
  ∃ s', doMigrations s = Some s'
    ∧ (first_version (users s') = Some 1%Z
       ∧ first_version (chat s') = Some 1%Z
       ∧ first_version (players s') = Some 1%Z
       ∧ first_version (status s') = Some 1%Z
       ∧ first_version (server s') = Some 1%Z)
    ∧ (same_data (users s) (users s') ∧ same_data (chat s) (chat s')
       ∧ same_data (players s) (players s')
       ∧ same_data (status s) (status s')
       ∧ same_data (server s) (server s'))
    ∧ doMigrations s' = Some s'.
Proof.
  intros Hu Hc Hp Hst Hse.
  destruct (migrate_named_settles "users" (users s)) as (u' & Eu & Fu & Du & Iu);
    [set_solver|done|].
  destruct (migrate_named_settles "chat" (chat s)) as (c' & Ec & Fc & Dc & Ic);
    [set_solver|done|].
  destruct (migrate_named_settles "players" (players s))
    as (p' & Ep & Fp & Dp & Ip); [set_solver|done|].
  destruct (migrate_named_settles "status" (status s))
    as (t' & Et & Ft & Dt & It); [set_solver|done|].
  destruct (migrate_named_settles "server" (server s))
    as (v' & Ev & Fv & Dv & Iv); [set_solver|done|].
  exists (Stores u' c' p' t' v'). unfold doMigrations.
  rewrite Eu, Ec, Ep, Et, Ev. simpl.
  rewrite Iu, Ic, Ip, It, Iv. done.
Qed.

Lemma replace_by_version_split (pre post : list (doc D)) (i : nat) (v v' : Z) :
  NoDup (map doc_id (pre ++ StoreVersion i v :: post)%list) →
  replace_by_version i v' (pre ++ StoreVersion i v :: post)%list
  = (pre ++ VersionOnly i v' :: post)%list.
Proof.
  induction pre as [|d pre IH]; simpl; intros Hnd.
  - by rewrite bool_decide_eq_true_2.
  - apply NoDup_cons in Hnd as [Hd Hnd].
    rewrite bool_decide_eq_false_2.
    + by rewrite IH.
    + intros Heq. apply Hd. rewrite map_app. simpl.
      apply elem_of_app. right. rewrite Heq. apply list_elem_of_here.
Qed.

(** X11.  A store whose first version entry is at another version than
    the expected one, and for which no migration from that version exists
    (as for every store of the database, whose migration lists are empty),
    is not brought to the expected version: its other documents stay, and
    its version entry is replaced by a document that keeps the id and the
    old version number and has no type any more. *)
Theorem unmigrated_entry_loses_its_type (expected : Z)
  (migs : list (migration D)) (pre post : list (doc D)) (i : nat) (v : Z) :
  Forall (λ y, is_version y = false) pre →
  NoDup (map doc_id (pre ++ StoreVersion i v :: post)%list) →
  v ≠ expected →
  Forall (λ m, m_version m ≠ v) migs →
  migrate_store expected migs (pre ++ StoreVersion i v :: post)%list
  = (pre ++ VersionOnly i v :: post)%list
  ∧ first_version (pre ++ VersionOnly i v :: post)%list = first_version post.
Proof.
  intros Hpre Hnd Hv Hmigs. split.
  - unfold migrate_store. rewrite find_version_app by done.
    rewrite bool_decide_eq_true_2 by done.
    assert (upgrade_loop (Z.to_nat (expected - v)) migs v expected
              (pre ++ StoreVersion i v :: post)%list
            = (v, (pre ++ StoreVersion i v :: post)%list)) as ->.
    { destruct (Z.to_nat (expected - v)); simpl; [done|].
      case_bool_decide; [|done].
      rewrite (find_none_with _ (λ m, m_version m = v)); [done| |done].
      intros m. apply bool_decide_eq_true. }
    by apply replace_by_version_split.
  - unfold first_version. by rewrite find_app_skip.
Qed.

End store_versions.

(** X10 for a database whose stores are all empty. *)
Lemma doMigrations_settles_witness :
  ∃ s', Migrations.doMigrations (D := string) (Migrations.Stores [] [] [] [] [])
        = Some s'
    ∧ Migrations.doMigrations s' = Some s'.
Proof.
  destruct (doMigrations_settles (D := string)
              (Migrations.Stores [] [] [] [] []))
    as (s' & Hrun & _ & _ & Hagain); try by left.
  by exists s'.
Defined.

(** X11 for a users store left at version 0. *)
Lemma unmigrated_entry_loses_its_type_witness :
  Migrations.migrate_named "users" old_store
  = Some [ Migrations.Data 1 "alice"; Migrations.VersionOnly 2 0;
           Migrations.Data 3 "bob" ].
Proof.
  destruct (unmigrated_entry_loses_its_type (D := string) 1 []
              [Migrations.Data 1 "alice"] [Migrations.Data 3 "bob"] 2 0)
    as [Hrun _].
  - by repeat constructor.
  - simpl. compute_done.
  - done.
  - constructor.
  - exact (f_equal Some Hrun).
Defined.

Section visits.

Import Visits.

Context {U : Type}.

Lemma fresh_above (ids : list nat) (i : nat) : i ∈ ids → (i < fresh ids)%nat.
Proof.
  unfold fresh. induction 1 as [i ids|i j ids _ IH]; simpl; lia.
Qed.

Lemma fresh_is_new (ids : list nat) : fresh ids ∉ ids.
Proof. intros Hin. pose proof (fresh_above _ _ Hin). lia. Qed.

(** X12.  [getInstanceId] makes one app:start document per process: the
    first call inserts it under a new id, remembers it, and hands the dates
    of all stored chats to the calendar; every later call returns the same
    id and leaves the database as it is. *)
Theorem getInstanceId_once (now : Z) (st : db U) :
  (∀ now', (getInstanceId now' (getInstanceId now st).2)
           = (getInstanceId now st))
  ∧ (serverInstance st = None →
       server (getInstanceId now st).2
       = (server st ++ [AppStart (getInstanceId now st).1 now])%list
       ∧ ((getInstanceId now st).1 ∉ map server_doc_id (server st))
       ∧ calendar (getInstanceId now st).2
         = (calendar st ++ chat_dates (chats st))%list
       ∧ chats (getInstanceId now st).2 = chats st
       ∧ players (getInstanceId now st).2 = players st)
  ∧ (∀ i date, serverInstance st = Some (i, date) →
       getInstanceId now st = (i, st)).
Proof.
  unfold getInstanceId. split; [|split].
  - intros now'. by destruct (serverInstance st) as [[i d]|] eqn:Hs; simpl;
      [rewrite Hs|].
  - intros ->. simpl. repeat split. apply fresh_is_new.
  - by intros i date ->.
Qed.

(** X13.  [addChatLog] appends one chat document, made at the second
    reading of the clock and tagged with the instance id; a message that
    is undefined or empty is left out of the document.  The calendar gets
    the first reading of the clock, followed, when this call is the one
    that makes the instance id, by the dates of the chats stored before. *)
Theorem addChatLog_appends (now1 now2 now3 : Z) (act : string) (usr : U)
  (msg : option string) (st : db U) :
  let doc := (addChatLog now1 now2 now3 act usr msg st).1 in
  let st' := (addChatLog now1 now2 now3 act usr msg st).2 in
  chats st' = (chats st ++ [ChatDoc doc])%list
  ∧ (chat_id doc ∉ map chat_doc_id (chats st))
  ∧ created doc = now2 ∧ action doc = act ∧ user doc = usr
  ∧ instanceId doc = (getInstanceId now3 st).1
  ∧ (message doc = None ↔ msg = None ∨ msg = Some EmptyString)
  ∧ (∀ m, message doc = Some m → msg = Some m)
  ∧ calendar st'
    = (calendar st
       ++ now1 :: (match serverInstance st with
                   | None => chat_dates (chats st)
                   | Some _ => []
                   end))%list
  ∧ players st' = players st.
Proof.
  unfold addChatLog, getInstanceId. simpl.
  destruct msg as [m|]; [destruct (decide (m = EmptyString)) as [->|Hm]|];
    destruct (serverInstance st) as [[i d]|]; simpl;
    rewrite ?bool_decide_eq_true_2, ?bool_decide_eq_false_2 by done;
    repeat split; try done; try apply fresh_is_new;
    try (by left); try (by right); try (by intros [?|?]);
    try (by intros [?|[= ?]]); by rewrite <- app_assoc.
Qed.

Lemma findOne_player_split (docs : list players_doc) (pid : string)
  (ex : userHistory) :
  findOne_player docs pid = Some ex →
  id ex = pid
  ∧ ∃ pre post, docs = (pre ++ History ex :: post)%list
                ∧ Forall (λ d, has_player_id pid d = false) pre.
Proof.
  unfold findOne_player.
  destruct (find (has_player_id pid) docs) as [d|] eqn:Hf; [|done].
  destruct (find_split _ _ _ Hf) as (pre & post & -> & Hd & Hpre).
  destruct d as [|h]; [done|]. intros [= ->]. split.
  - by apply bool_decide_eq_true in Hd.
  - by exists pre, post.
Qed.

Lemma findOne_player_none (docs : list players_doc) (pid : string) :
  findOne_player docs pid = None ↔ pid ∉ player_ids docs.
Proof.
  unfold findOne_player, player_ids.
  induction docs as [|d docs IH]; simpl.
  - split; [|done]. intros _ Hin. by apply elem_of_nil in Hin.
  - destruct d as [i v|h]; simpl; [exact IH|].
    case_bool_decide as Hid.
    + split; [done|]. intros Hno. exfalso. apply Hno. rewrite Hid.
      apply list_elem_of_here.
    + rewrite IH. split.
      * intros Hno [?|Hin]%elem_of_cons; [by subst|done].
      * intros Hno Hin. apply Hno. by apply list_elem_of_further.
Qed.

Lemma update_player_split (pre post : list players_doc)
  (ex h' : userHistory) :
  NoDup (map players_doc_id (pre ++ History ex :: post)%list) →
  update_player (h_key ex) h' (pre ++ History ex :: post)%list
  = (pre ++ History h' :: post)%list.
Proof.
  induction pre as [|d pre IH]; simpl; intros Hnd.
  - by rewrite bool_decide_eq_true_2.
  - apply NoDup_cons in Hnd as [Hd Hnd].
    rewrite bool_decide_eq_false_2.
    + by rewrite IH.
    + intros Heq. apply Hd. rewrite map_app. simpl.
      apply elem_of_app. right. rewrite Heq. apply list_elem_of_here.
Qed.

Lemma getInstanceId_players (now : Z) (st : db U) :
  players (getInstanceId now st).2 = players st.
Proof. unfold getInstanceId. by destruct (serverInstance st) as [[]|]. Qed.

Lemma addVisit_unfold (now now' : Z) (u : visitor) (st : db U) :
  (addVisit now now' u st).1
  = match findOne_player (players st) (v_id u) with
    | Some _ => false
    | None => true
    end
  ∧ players (addVisit now now' u st).2
    = match findOne_player (players st) (v_id u) with
      | None =>
          (players st
           ++ [History
                 (UserHistory (fresh (map players_doc_id (players st)))
                    (v_id u) (v_name u) [(v_name u, now)] [] now now
                    (getInstanceId now' st).1 0 1 1)])%list
      | Some ex =>
          update_player (h_key ex)
            (visit_again now (getInstanceId now' st).1 u ex) (players st)
      end.
Proof.
  unfold addVisit. pose proof (getInstanceId_players now' st) as Hp.
  destruct (getInstanceId now' st) as [i st1]. simpl in *.
  destruct (findOne_player (players st) (v_id u)); simpl; by rewrite Hp.
Qed.

(** What [addVisit] does to the players store, for a first visit and for
    a later one. *)
Lemma addVisit_cases (now now' : Z) (u : visitor) (st : db U) :
  NoDup (map players_doc_id (players st)) →
  (v_id u ∉ player_ids (players st) →
       ∃ key, (key ∉ map players_doc_id (players st))
         ∧ players (addVisit now now' u st).2
           = (players st
              ++ [History (UserHistory key (v_id u) (v_name u)
                             [(v_name u, now)] [] now now
                             (getInstanceId now' st).1 0 1 1)])%list)
  ∧ (∀ ex, findOne_player (players st) (v_id u) = Some ex →
       ∃ pre post h',
         players st = (pre ++ History ex :: post)%list
         ∧ Forall (λ d, has_player_id (v_id u) d = false) pre
         ∧ players (addVisit now now' u st).2
           = (pre ++ History h' :: post)%list
         ∧ h_key h' = h_key ex ∧ id h' = v_id u ∧ name h' = v_name u
         ∧ lastSeen h' = now
         ∧ lastInstanceId h' = (getInstanceId now' st).1
         ∧ h_created h' = h_created ex ∧ ips h' = ips ex
         ∧ heartbeats h' = heartbeats ex
         ∧ sessions h'
           = (sessions ex
              + if decide (lastSeen ex < now - 3600000) then 1 else 0)%Z
         ∧ instances h'
           = (instances ex
              + if decide (lastInstanceId ex = (getInstanceId now' st).1)
                then 1 else 0)%Z
         ∧ nameHistory h'
           = if decide (v_name u ∈ map fst (nameHistory ex))
             then nameHistory ex
             else (nameHistory ex ++ [(v_name u, now)])%list).
Proof.
  intros Hnd. destruct (addVisit_unfold now now' u st) as [_ Hplayers].
  split.
  - intros Hnew. apply findOne_player_none in Hnew. rewrite Hnew in Hplayers.
    eexists. split; [apply fresh_is_new|exact Hplayers].
  - intros ex Hex. rewrite Hex in Hplayers.
    destruct (findOne_player_split _ _ _ Hex)
      as (Hid & pre & post & Hdocs & Hpre).
    exists pre, post, (visit_again now (getInstanceId now' st).1 u ex).
    split; [done|]. split; [done|]. split.
    + rewrite Hplayers, Hdocs. apply update_player_split. by rewrite <- Hdocs.
    + unfold visit_again, name_known. simpl.
      repeat split; try done; repeat case_bool_decide; repeat case_decide;
        try done; lia.
Qed.

(** X14.  [addVisit] returns true exactly for a player without a history
    document, and then appends one: a first session and instance, no
    heartbeat, no ip, the name as the one entry of the name history.  For
    a player who has one it returns false and changes that document in
    place: last seen, name and last instance are set; sessions grow by one
    when the player was last seen more than an hour before; instances grow
    by one when the last instance is the current one; the name is added
    to the name history when it is not in it.  No other document changes. *)
Theorem addVisit_first_or_again (now now' : Z) (u : visitor) (st : db U) :
  NoDup (map players_doc_id (players st)) →
  ((addVisit now now' u st).1 = true ↔ v_id u ∉ player_ids (players st))
  ∧ (v_id u ∉ player_ids (players st) →
       ∃ key, (key ∉ map players_doc_id (players st))
         ∧ players (addVisit now now' u st).2
           = (players st
              ++ [History (UserHistory key (v_id u) (v_name u)
                             [(v_name u, now)] [] now now
                             (getInstanceId now' st).1 0 1 1)])%list)
  ∧ (∀ ex, findOne_player (players st) (v_id u) = Some ex →
       ∃ pre post h',
         players st = (pre ++ History ex :: post)%list
         ∧ Forall (λ d, has_player_id (v_id u) d = false) pre
         ∧ players (addVisit now now' u st).2
           = (pre ++ History h' :: post)%list
         ∧ h_key h' = h_key ex ∧ id h' = v_id u ∧ name h' = v_name u
         ∧ lastSeen h' = now
         ∧ lastInstanceId h' = (getInstanceId now' st).1
         ∧ h_created h' = h_created ex ∧ ips h' = ips ex
         ∧ heartbeats h' = heartbeats ex
         ∧ sessions h'
           = (sessions ex
              + if decide (lastSeen ex < now - 3600000) then 1 else 0)%Z
         ∧ instances h'
           = (instances ex
              + if decide (lastInstanceId ex = (getInstanceId now' st).1)
                then 1 else 0)%Z
         ∧ nameHistory h'
           = if decide (v_name u ∈ map fst (nameHistory ex))
             then nameHistory ex
             else (nameHistory ex ++ [(v_name u, now)])%list).
Proof.
  intros Hnd. split; [|by apply addVisit_cases].
  destruct (addVisit_unfold now now' u st) as [Hret _].
  rewrite Hret, <- findOne_player_none.
  by destruct (findOne_player (players st) (v_id u)).
Qed.

Lemma player_ids_app (l1 l2 : list players_doc) :
  player_ids (l1 ++ l2)%list = (player_ids l1 ++ player_ids l2)%list.
Proof. unfold player_ids. apply omap_app. Qed.

(** X15.  [addVisit] keeps the players store in order: document ids stay
    unique, no player gets a second history document, and in every history
    each name is listed once and the current name is listed.  After the
    call the visitor has a history with the name and time of the visit. *)
Theorem addVisit_keeps_players_ok (now now' : Z) (u : visitor) (st : db U) :
  players_ok (players st) →
  players_ok (players (addVisit now now' u st).2)
  ∧ ∃ h, findOne_player (players (addVisit now now' u st).2) (v_id u) = Some h
      ∧ name h = v_name u ∧ lastSeen h = now
      ∧ v_name u ∈ map fst (nameHistory h).
Proof.
  intros (Hnd & Hids & Hhist).
  destruct (addVisit_cases now now' u st Hnd) as (Hfirst & Hagain).
  destruct (findOne_player (players st) (v_id u)) as [ex|] eqn:Hex.
  - destruct (Hagain ex eq_refl)
      as (pre & post & h' & Hdocs & Hpre & -> & Hkey & Hid & Hname & Hseen
          & _ & _ & _ & _ & _ & _ & Hnames).
    destruct (findOne_player_split _ _ _ Hex) as (Hidex & _).
    assert (Hexok : history_ok ex).
    { apply Hhist. rewrite Hdocs. apply elem_of_app. right.
      apply list_elem_of_here. }
    assert (Hok' : history_ok h').
    { unfold history_ok. rewrite Hname, Hnames. destruct Hexok as [Hnd' Hin'].
      case_decide as Hknown; [done|]. rewrite map_app. simpl. split.
      - apply NoDup_app. split; [done|]. split; [|apply NoDup_singleton].
        intros x Hx ->%list_elem_of_singleton. done.
      - apply elem_of_app. right. apply list_elem_of_here. }
    split; [split; [|split]|].
    + rewrite Hdocs in Hnd. rewrite map_app in *. simpl in *. by rewrite Hkey.
    + rewrite Hdocs in Hids. rewrite player_ids_app in *. simpl in *.
      by rewrite Hid, <- Hidex.
    + intros h Hh. apply elem_of_app in Hh as [Hh|Hh].
      * apply Hhist. rewrite Hdocs. apply elem_of_app. by left.
      * apply elem_of_cons in Hh as [[= ->]|Hh]; [done|].
        apply Hhist. rewrite Hdocs. apply elem_of_app. right.
        by apply list_elem_of_further.
    + exists h'. split; [|split; [done|split; [done|]]].
      * unfold findOne_player. rewrite find_app_skip by done. simpl.
        by rewrite bool_decide_eq_true_2.
      * destruct Hok' as [_ Hin]. by rewrite Hname in Hin.
  - apply findOne_player_none in Hex.
    destruct (Hfirst Hex) as (key & Hkey & ->).
    split; [split; [|split]|].
    + rewrite map_app. simpl. apply NoDup_app. split; [done|].
      split; [|apply NoDup_singleton].
      intros x Hx ->%list_elem_of_singleton. done.
    + rewrite player_ids_app. simpl. apply NoDup_app. split; [done|].
      split; [|apply NoDup_singleton].
      intros x Hx ->%list_elem_of_singleton. done.
    + intros h Hh. apply elem_of_app in Hh as [Hh|Hh]; [by apply Hhist|].
      apply list_elem_of_singleton in Hh as [= ->]. split; simpl.
      * apply NoDup_singleton.
      * apply list_elem_of_here.
    + eexists. split; [|split; [|split]].
      * unfold findOne_player. rewrite find_app_skip.
        -- simpl. by rewrite bool_decide_eq_true_2.
        -- apply Forall_forall. intros d Hd.
           destruct d as [|h]; [done|]. simpl.
           apply bool_decide_eq_false_2. intros Hid. apply Hex.
           unfold player_ids. apply list_elem_of_omap.
           exists (History h). by rewrite <- Hid.
      * done.
      * done.
      * apply list_elem_of_here.
Qed.

End visits.

(** X12 on the sample database: a second call changes nothing. *)
Lemma getInstanceId_once_witness :
  Visits.getInstanceId 7000 (Visits.getInstanceId 5000 sample_db).2
  = Visits.getInstanceId 5000 sample_db
  ∧ Visits.calendar (Visits.getInstanceId 5000 sample_db).2 = [900%Z].
Proof.
  destruct (getInstanceId_once 5000 sample_db) as (Hagain & Hfirst & _).
  split; [apply Hagain|].
  destruct Hfirst as (_ & _ & Hcal & _); [reflexivity|].
  exact Hcal.
Defined.

(** X13 on the sample database, for an empty message. *)
Lemma addChatLog_appends_witness :
  Visits.message
    (Visits.addChatLog 5000 5001 5002 "join" "Bob" (Some EmptyString)
       sample_db).1 = None
  ∧ Visits.calendar
      (Visits.addChatLog 5000 5001 5002 "join" "Bob" (Some EmptyString)
         sample_db).2 = [5000%Z; 900%Z].
Proof.
  pose proof (addChatLog_appends 5000 5001 5002 "join" "Bob"
                (Some EmptyString) sample_db) as H.
  cbv zeta in H.
  destruct H as (_ & _ & _ & _ & _ & _ & Hmsg & _ & Hcal & _).
  split; [apply Hmsg; by right|exact Hcal].
Defined.

Lemma sample_players_ok : players_ok (Visits.players sample_db).
Proof.
  split; [|split].
  - simpl. compute_done.
  - simpl. apply NoDup_singleton.
  - intros h Hh. simpl in Hh.
    apply elem_of_cons in Hh as [[=]|Hh].
    apply list_elem_of_singleton in Hh as [= ->].
    split; simpl; [apply NoDup_singleton|apply list_elem_of_here].
Qed.

(** X14 on the sample database: Bob comes back two and a half hours later
    under the name Bobby. *)
Lemma addVisit_first_or_again_witness :
  ∃ h', Visits.players
          (Visits.addVisit 10000000 10000001 (Visits.Visitor "p1" "Bobby")
             sample_db).2
        = [Visits.PlayersVersion 1 1; Visits.History h']
    ∧ Visits.sessions h' = 2%Z
    ∧ Visits.nameHistory h' = [("Bob", 1000%Z); ("Bobby", 10000000%Z)].
Proof.
  destruct (addVisit_first_or_again 10000000 10000001
              (Visits.Visitor "p1" "Bobby") sample_db) as (_ & _ & Hagain).
  { apply sample_players_ok. }
  destruct (Hagain bob_history eq_refl)
    as (pre & post & h' & Hdocs & Hpre & Hnew & _ & _ & _ & _ & _ & _ & _ & _
        & Hsessions & _ & Hnames).
  exists h'.
  destruct pre as [|d [|d' pre]]; simpl in Hdocs; [done| |].
  - injection Hdocs as <- <-. split; [exact Hnew|].
    split; [exact Hsessions|exact Hnames].
  - injection Hdocs as _ _ Hdocs. by destruct pre.
Defined.

(** X15 on the sample database, for a player who was not known. *)
Lemma addVisit_keeps_players_ok_witness :
  players_ok
    (Visits.players
       (Visits.addVisit 10000000 10000001 (Visits.Visitor "p9" "Eve")
          sample_db).2).
Proof.
  apply (addVisit_keeps_players_ok 10000000 10000001
           (Visits.Visitor "p9" "Eve") sample_db sample_players_ok).
Defined.

Section query_failures.

Context {num : Type}.
Context (Number : option string → num).

(** X16.  [getPosition] throws when an exchange is rejected or resolves
    with no match: after the first command alone when the pawn is not
    found, so the second command is never written, and after both when
    the position is not found.  What it returns always has three numbers. *)
Theorem getPosition_throws_without_match (e : engine) (p : player) :
  (watcher_result e (pawnWatcher (controller p)) = None
   ∨ watcher_result e (pawnWatcher (controller p)) = Some [] →
     run e (getPosition Number p)
     = ([ Registered (pawnWatcher (controller p));
          Written (pawnCommand (controller p)) ], Threw))
  ∧ (∀ m ms,
       watcher_result e (pawnWatcher (controller p)) = Some (m :: ms) →
       watcher_result e (posWatcher (template (groups m !! "pawn"))) = None
       ∨ watcher_result e (posWatcher (template (groups m !! "pawn")))
         = Some [] →
       run e (getPosition Number p)
       = ([ Registered (pawnWatcher (controller p));
            Written (pawnCommand (controller p));
            Registered (posWatcher (template (groups m !! "pawn")));
            Written (posCommand (template (groups m !! "pawn"))) ], Threw))
  ∧ (∀ v, (run e (getPosition Number p)).2 = Returned v → length v = 3%nat).
Proof.
  unfold getPosition. simpl. split; [|split].
  - by intros [->| ->].
  - intros m ms ->. simpl. by intros [->| ->].
  - intros v.
    destruct (watcher_result e (pawnWatcher (controller p))) as [[|m ms]|];
      simpl; try done.
    destruct (watcher_result e (posWatcher (template (groups m !! "pawn"))))
      as [[|m' ms']|]; simpl; try done.
    by intros [= <-].
Qed.

(** X17.  [getGhostBrick] starts both dumps before it reads either, and
    throws when one of them is rejected.  When the owner dump has a record
    of the player's controller and the transform dump has a record of
    that record's actor, it returns the target grid and orientation as
    captured (the grid undefined when the capture is missing) and the
    location as the numbers of the captures x, y, z, of the first such
    records. *)
Theorem getGhostBrick_found (e : engine) (p : player) :
  (run e (getGhostBrick Number p)).1
  = [ChunkStarted ghostOwnerReq; ChunkStarted transformParamsReq]
  ∧ (chunk_result e ghostOwnerReq = None
     ∨ chunk_result e transformParamsReq = None →
     (run e (getGhostBrick Number p)).2 = Threw)
  ∧ (∀ owners transformParams owner tp,
       chunk_result e ghostOwnerReq = Some owners →
       chunk_result e transformParamsReq = Some transformParams →
       first_with (has_group "controller" (Some (controller p))) owners owner →
       first_with (has_group "actor" (groups owner !! "actor"))
         transformParams tp →
       (run e (getGhostBrick Number p)).2
       = Returned (Some
           {| targetGrid := groups tp !! "targetGrid";
              location := [ Number (groups tp !! "x");
                            Number (groups tp !! "y");
                            Number (groups tp !! "z") ];
              orientation := groups tp !! "orientation" |})).
Proof.
  unfold getGhostBrick. simpl. split; [|split].
  - destruct (chunk_result e ghostOwnerReq) as [owners|]; simpl; [|done].
    destruct (chunk_result e transformParamsReq) as [tps|]; simpl; [|done].
    by split_finds.
  - intros [-> | Hnone]; [done|]. rewrite Hnone.
    by destruct (chunk_result e ghostOwnerReq).
  - intros owners tps owner tp -> ->. simpl. intros Howner Htp.
    by rewrite (find_owner _ _ _ Howner), (find_group _ _ _ _ Htp).
Qed.

End query_failures.

(** X16 for an engine that never answers. *)
Lemma getPosition_throws_without_match_witness :
  (run dead_engine (getPosition sample_Number sample_player)).2 = Threw.
Proof.
  destruct (getPosition_throws_without_match sample_Number dead_engine
              sample_player) as [Hfirst _].
  rewrite Hfirst; [reflexivity|by left].
Defined.

(** X17 for the ghost brick that the sample dumps list. *)
Lemma getGhostBrick_found_witness :
  (run dump_engine (getGhostBrick sample_Number sample_player)).2
  = Returned (Some
      {| targetGrid := None;
         location := ["10"; "20"; "30"];
         orientation := Some "Z_Positive_0" |}).
Proof.
  destruct (getGhostBrick_found sample_Number dump_engine sample_player)
    as (_ & _ & Hfound).
  rewrite (Hfound [sample_entry] [sample_entry] sample_entry sample_entry);
    try reflexivity; apply first_with_head; vm_compute; reflexivity.
Defined.

Section cards_per_month.

Import UTCDate.

Lemma update_card_keeps_query (i : nat) (pc : list (list Z)) (time m y : Z)
  (docs : list status_doc) :
  map (is_card_of m y) (update_card i pc time docs)
  = map (is_card_of m y) docs.
Proof.
  induction docs as [|d docs IH]; simpl; [done|].
  case_bool_decide; simpl; [|by rewrite IH].
  by destruct d.
Qed.

Lemma find_is_Some_map {A} (f : A → bool) (l l' : list A) :
  map f l = map f l' → is_Some (find f l) → is_Some (find f l').
Proof.
  revert l'. induction l as [|a l IH]; intros [|a' l'] Hmap; simpl; try done.
  injection Hmap as Ha Hmap. rewrite <- Ha.
  destruct (f a); [by eexists|]. by apply IH.
Qed.

Lemma findOne_card_is_Some (docs : list status_doc) (m y : Z) :
  is_Some (findOne_card docs m y) ↔ is_Some (find (is_card_of m y) docs).
Proof.
  unfold findOne_card. split.
  - destruct (find (is_card_of m y) docs); [by eexists|by intros [? ?]].
  - intros [d Hd]. rewrite Hd.
    destruct (find_card_is_card _ _ _ _ Hd) as (c & -> & _). by eexists.
Qed.

Lemma update_card_length (i : nat) (pc : list (list Z)) (time : Z)
  (docs : list status_doc) :
  length (update_card i pc time docs) = length docs.
Proof.
  induction docs as [|d docs IH]; simpl; [done|].
  case_bool_decide; simpl; [by destruct d|by rewrite IH].
Qed.

(** X18.  Whenever [updatePlayerPunchcard] goes through, the store holds a
    card for the UTC month and year of [now] afterwards; it grows by one
    document when that month had no card and keeps its size when it had
    one.  So a further update in the same month adds no second card. *)
Theorem one_card_per_month (now n : Z) (docs docs' : list status_doc) :
  updatePlayerPunchcard now n docs = Some docs' →
  is_Some (findOne_card docs' (getUTCMonth now) (getUTCFullYear now))
  ∧ (findOne_card docs (getUTCMonth now) (getUTCFullYear now) = None →
       length docs' = S (length docs))
  ∧ (is_Some (findOne_card docs (getUTCMonth now) (getUTCFullYear now)) →
       length docs' = length docs)
  ∧ (∀ now2 n2 docs'',
       getUTCMonth now2 = getUTCMonth now →
       getUTCFullYear now2 = getUTCFullYear now →
       updatePlayerPunchcard now2 n2 docs' = Some docs'' →
       length docs'' = length docs').
Proof.
  assert (Hstep : ∀ t k ds ds',
            updatePlayerPunchcard t k ds = Some ds' →
            is_Some (findOne_card ds' (getUTCMonth t) (getUTCFullYear t))
            ∧ (findOne_card ds (getUTCMonth t) (getUTCFullYear t) = None →
                 length ds' = S (length ds))
            ∧ (is_Some (findOne_card ds (getUTCMonth t) (getUTCFullYear t)) →
                 length ds' = length ds)).
  { intros t k ds ds'. unfold updatePlayerPunchcard. cbv zeta.
    destruct (findOne_card ds (getUTCMonth t) (getUTCFullYear t))
      as [c|] eqn:Hfind.
    - destruct (add_cell _ _ _ _) as [pc|]; simpl; [|done].
      intros [= <-]. split; [|split].
      + apply findOne_card_is_Some.
        apply (find_is_Some_map _ ds); [by rewrite update_card_keeps_query|].
        apply findOne_card_is_Some. by rewrite Hfind.
      + done.
      + intros _. apply update_card_length.
    - destruct (set_cell _ _ _ _) as [pc|]; simpl; [|done].
      intros [= <-]. split; [|split].
      + apply findOne_card_None in Hfind.
        unfold findOne_card. rewrite find_app_skip.
        * simpl. rewrite !bool_decide_eq_true_2 by done. by eexists.
        * apply Forall_forall. intros d Hd.
          apply (find_none _ _ Hfind). by apply list_elem_of_In.
      + intros _. rewrite length_app. simpl. lia.
      + by intros [? ?]. }
  intros Hrun. destruct (Hstep _ _ _ _ Hrun) as (Hcard & Hnew & Hold).
  split; [done|]. split; [done|]. split; [done|].
  intros now2 n2 docs'' Hm Hy Hrun2.
  destruct (Hstep _ _ _ _ Hrun2) as (_ & _ & Hsame).
  apply Hsame. by rewrite Hm, Hy.
Qed.

End cards_per_month.

(** X18 on a store that has no card: the first update adds the card, a
    second one an hour later adds nothing. *)
Lemma one_card_per_month_witness :
  ∃ docs' docs'',
    updatePlayerPunchcard 1793610000001 3 sample_status = Some docs'
    ∧ updatePlayerPunchcard 1793613600001 2 docs' = Some docs''
    ∧ length docs' = 3%nat ∧ length docs'' = 3%nat.
Proof.
  destruct (updatePlayerPunchcard 1793610000001 3 sample_status)
    as [docs'|] eqn:H1; [|by vm_compute in H1].
  destruct (updatePlayerPunchcard 1793613600001 2 docs')
    as [docs''|] eqn:H2.
  - exists docs', docs''.
    destruct (one_card_per_month _ _ _ _ H1) as (_ & Hnew & _ & Hnext).
    split; [done|]. split; [done|].
    assert (Hlen : length docs' = 3%nat) by (apply Hnew; by vm_compute).
    split; [done|]. rewrite <- Hlen.
    apply (Hnext 1793613600001%Z 2%Z docs''); [by vm_compute|by vm_compute|done].
  - exfalso. vm_compute in H1. injection H1 as <-. by vm_compute in H2.
Defined.
